(** * Minus80: the Freezable persistence layer

    A shallow embedding of [minus80/Freezable.py]: the [relational_db]
    wrapper around an embedded SQL connection and the [Freezable] base
    class whose constructor derives and creates the storage directory of
    a persistent object.

    Python objects are records in a heap, attribute access goes through
    their instance dictionaries, and every method is a computation in a
    state-and-exception monad over a [world] that holds the heap, the
    filesystem, the open connections and the process configuration. *)

From Stdlib Require Import ZArith Ascii String.
From stdpp Require Import base option list strings pretty gmap.

Local Open Scope string_scope.

(** ** Exceptions and values *)

(** The exception classes that the modelled code and its library calls
    raise.  [UserError] stands for any other class derived from
    [Exception] (raised by application code inside a [with] block),
    [BaseOnly] for classes that derive from [BaseException] alone, such
    as [KeyboardInterrupt]. *)
Inductive exn : Type :=
  | AttributeError (cls attr : string)
  | TypeError (msg : string)
  | ValueError (msg : string)
  | FileNotFoundError (path : string)
  | FileExistsError (path : string)
  | NotADirectoryError (path : string)
  | SQLError (msg : string)
  | UserError (cls msg : string)
  | BaseOnly (cls : string).

(** [isinstance(e, Exception)]. *)
Definition is_Exception (e : exn) : bool :=
  match e with
  | BaseOnly _ => false
  | _ => true
  end.

#[global] Instance exn_eq_dec : EqDecision exn.
Proof. solve_decision. Defined.

Definition ref := nat.

(** Python values that reach the modelled code. *)
Inductive value : Type :=
  | VNone
  | VBool (b : bool)
  | VInt (z : Z)
  | VStr (s : string)
  | VRef (r : ref)
  | VConn (c : nat)
  | VCursor (c : nat)
  | VKeyVal (store : value).

#[global] Instance value_eq_dec : EqDecision value.
Proof. solve_decision. Defined.

(** ** [os.path] on POSIX *)

Module os_path.

Definition sep : ascii := "/"%char.

Definition startswith_sep (s : string) : bool :=
  match s with
  | String c _ => bool_decide (c = sep)
  | EmptyString => false
  end.

Fixpoint endswith_sep (s : string) : bool :=
  match s with
  | EmptyString => false
  | String c EmptyString => bool_decide (c = sep)
  | String _ t => endswith_sep t
  end.

(** One round of the loop of [posixpath.join]: an absolute component
    replaces what came before, otherwise the component is appended,
    with a separator unless the path is empty or already ends in one. *)
Definition join_step (path b : string) : string :=
  if startswith_sep b then b
  else if bool_decide (path = "") || endswith_sep path then path +:+ b
  else path +:+ "/" +:+ b.

Definition join (a : string) (p : list string) : string :=
  fold_left join_step p a.

(** The components of a path: the text between separators. *)
Fixpoint split_sep (acc : string) (s : string) : list string :=
  match s with
  | EmptyString => [String.rev acc]
  | String c t =>
      if bool_decide (c = sep) then String.rev acc :: split_sep "" t
      else split_sep (String c acc) t
  end.

Definition components (s : string) : list string := split_sep "" s.

Fixpoint lstrip_sep (s : string) : string :=
  match s with
  | String c t => if bool_decide (c = sep) then lstrip_sep t else s
  | EmptyString => EmptyString
  end.

Definition rstrip_sep (s : string) : string :=
  String.rev (lstrip_sep (String.rev s)).

(** [posixpath.expanduser] for the current user, whose home directory
    is [home]: a leading [~] that is a whole component is replaced by
    the home directory without its trailing separators.  The [~user]
    form needs the password database and is left unchanged, as the
    library does for an unknown user. *)
Definition expanduser (home : string) (path : string) : string :=
  match path with
  | String "~" EmptyString =>
      let h := rstrip_sep home in if bool_decide (h = "") then "/" else h
  | String "~" (String "/" rest) => rstrip_sep home +:+ "/" +:+ rest
  | _ => path
  end.

End os_path.

(** ** The filesystem

    Directories and files are sets of locations; a location is the list
    of names from the root.  Paths are resolved from the root, following
    [.] and [..]; symbolic links and permissions are not modelled. *)

Record filesystem : Type := Filesystem {
  fs_dirs : gset (list string);
  fs_files : gset (list string)
}.

Definition is_dir (fs : filesystem) (l : list string) : bool :=
  bool_decide (l = [] ∨ l ∈ fs_dirs fs).

Definition is_file (fs : filesystem) (l : list string) : bool :=
  bool_decide (l ∈ fs_files fs).

Definition add_dir (l : list string) (fs : filesystem) : filesystem :=
  {| fs_dirs := {[ l ]} ∪ fs_dirs fs; fs_files := fs_files fs |}.

Definition add_file (l : list string) (fs : filesystem) : filesystem :=
  {| fs_dirs := fs_dirs fs; fs_files := {[ l ]} ∪ fs_files fs |}.

Fixpoint has_nul (s : string) : bool :=
  match s with
  | EmptyString => false
  | String c t => bool_decide (c = Ascii.zero) || has_nul t
  end.

(** Is the component one that names the directory itself? *)
Definition is_curdir (c : string) : bool :=
  bool_decide (c = "") || bool_decide (c = ".").

(** Walks the components of a path from [cur]; every directory that is
    walked through has to exist, and no path with a null byte leads
    anywhere. *)
Fixpoint resolve_from (fs : filesystem) (cur : list string)
    (comps : list string) : option (list string) :=
  match comps with
  | [] => Some cur
  | c :: rest =>
      if negb (is_dir fs cur) || has_nul c then None
      else if is_curdir c then resolve_from fs cur rest
      else if bool_decide (c = "..") then resolve_from fs (removelast cur) rest
      else resolve_from fs (cur ++ [c])%list rest
  end.

Definition locate (fs : filesystem) (p : string) : option (list string) :=
  if bool_decide (p = "") then None
  else resolve_from fs [] (os_path.components p).

(** [os.path.isdir]. *)
Definition isdir (fs : filesystem) (p : string) : bool :=
  match locate fs p with
  | Some l => is_dir fs l
  | None => false
  end.

(** The work of [os.makedirs(name, exist_ok=True)]: every missing
    directory on the way is created; a component with a null byte makes
    the system call raise [ValueError], a file in the way makes it raise
    [FileExistsError] (at the leaf) or [NotADirectoryError]. *)
Fixpoint makedirs_walk (name : string) (cur : list string)
    (comps : list string) (fs : filesystem) : (exn + unit) * filesystem :=
  match comps with
  | [] => (inr (), fs)
  | c :: rest =>
      if has_nul c then (inl (ValueError "embedded null byte"), fs)
      else if is_curdir c then makedirs_walk name cur rest fs
      else if bool_decide (c = "..") then
        makedirs_walk name (removelast cur) rest fs
      else
        let l := (cur ++ [c])%list in
        if is_dir fs l then makedirs_walk name l rest fs
        else if is_file fs l then
          (inl (match rest with
                | [] => FileExistsError name
                | _ => NotADirectoryError name
                end), fs)
        else makedirs_walk name l rest (add_dir l fs)
  end.

(** [os.makedirs(name, exist_ok=exist_ok)]. *)
Definition os_makedirs (name : string) (exist_ok : bool) (fs : filesystem)
    : (exn + unit) * filesystem :=
  if bool_decide (name = "") then (inl (FileNotFoundError name), fs)
  else if negb exist_ok && isdir fs name then (inl (FileExistsError name), fs)
  else makedirs_walk name [] (os_path.components name) fs.

(** ** The embedded SQL engine *)

(** What a statement returns: the description of its columns (name and
    declared type) and its rows. *)
Record resultset : Type := ResultSet {
  rs_description : list (string * string);
  rs_rows : list (list value)
}.

Definition no_rows : resultset := ResultSet [] [].

(** The contents of a database: rows by table name. *)
Abbreviation database := (gmap string (list (list value))).

Record connection : Type := Connection {
  c_filename : string;
  c_synchronous : string;
  c_journal_mode : string;
  c_data : database;
  c_savepoints : list (string * database);
  c_executed : list string
}.

Fixpoint strip_prefix (p s : string) : option string :=
  match p, s with
  | EmptyString, _ => Some s
  | String a p', String b s' =>
      if bool_decide (a = b) then strip_prefix p' s' else None
  | String _ _, EmptyString => None
  end.

(** [ROLLBACK TO SAVEPOINT n]: the newest savepoint named [n] stays
    open, the ones opened after it are gone. *)
Fixpoint rollback_to (n : string) (sp : list (string * database))
    : option (database * list (string * database)) :=
  match sp with
  | [] => None
  | (m, d) :: rest =>
      if bool_decide (m = n) then Some (d, (m, d) :: rest)
      else rollback_to n rest
  end.

(** [RELEASE SAVEPOINT n]: the newest savepoint named [n] and the ones
    opened after it are closed; their changes stay. *)
Fixpoint release (n : string) (sp : list (string * database))
    : option (list (string * database)) :=
  match sp with
  | [] => None
  | (m, _) :: rest =>
      if bool_decide (m = n) then Some rest else release n rest
  end.

(** ** Objects and the world *)

(** The concrete type of an object.  [ty_name] is the name of the
    class, which is the kind of its instances.  [Freezable] is a base
    class: [ty_property] holds the data members that a concrete type
    declares on top of what this file defines (the attribute name gives
    a function of the instance dictionary), and [ty_add_child] tells
    whether the type has the [_m80_add_child] method.  Members of the
    type are consulted when the instance dictionary has no entry of
    that name. *)
Record pytype : Type := PyType {
  ty_name : string;
  ty_property : string → option (gmap string value → value);
  ty_add_child : bool
}.

Record object : Type := Object {
  obj_type : pytype;
  obj_dict : gmap string value;
  obj_children : gset ref
}.

Record world : Type := World {
  heap : gmap ref object;
  fs : filesystem;
  conns : gmap nat connection;
  cf_basedir : string;
  home : string;
  draws : nat
}.

Definition set_heap (h : gmap ref object) (w : world) : world :=
  World h (fs w) (conns w) (cf_basedir w) (home w) (draws w).

Definition set_fs (f : filesystem) (w : world) : world :=
  World (heap w) f (conns w) (cf_basedir w) (home w) (draws w).

Definition set_conns (c : gmap nat connection) (w : world) : world :=
  World (heap w) (fs w) c (cf_basedir w) (home w) (draws w).

Definition set_draws (n : nat) (w : world) : world :=
  World (heap w) (fs w) (conns w) (cf_basedir w) (home w) n.

(** ** Computations: state and exceptions

    A computation returns a value or raises, and in both cases leaves a
    world behind: what a Python statement did before it raised stays
    done. *)

Definition M (A : Type) : Type := world → (exn + A) * world.

#[global] Instance M_ret : MRet M := λ A a w, (inr a, w).

#[global] Instance M_bind : MBind M := λ A B f m w,
  match m w with
  | (inr a, w') => f a w'
  | (inl e, w') => (inl e, w')
  end.

Definition raise {A : Type} (e : exn) : M A := λ w, (inl e, w).

Definition gets {A : Type} (f : world → A) : M A := λ w, (inr (f w), w).

(** [try: m / except BaseException as e: h e]. *)
Definition try_except {A : Type} (m : M A) (h : exn → M A) : M A := λ w,
  match m w with
  | (inl e, w') => h e w'
  | r => r
  end.

(** [try: m / finally: f]: [f] runs on every way out of [m]; an
    exception of [f] replaces the outcome of [m]. *)
Definition try_finally {A : Type} (m : M A) (f : M unit) : M A := λ w,
  let '(r, w') := m w in
  match f w' with
  | (inl e, w'') => (inl e, w'')
  | (inr _, w'') => (r, w'')
  end.

(** ** Attribute access *)

Definition getattr (r : ref) (a : string) : M value := λ w,
  match heap w !! r with
  | Some o =>
      match obj_dict o !! a with
      | Some v => (inr v, w)
      | None =>
          match ty_property (obj_type o) a with
          | Some f => (inr (f (obj_dict o)), w)
          | None => (inl (AttributeError (ty_name (obj_type o)) a), w)
          end
      end
  | None => (inl (AttributeError "NoneType" a), w)
  end.

Definition setattr (r : ref) (a : string) (v : value) : M unit := λ w,
  match heap w !! r with
  | Some o =>
      (inr (),
       set_heap
         (<[r := Object (obj_type o) (<[a := v]> (obj_dict o)) (obj_children o)]>
            (heap w)) w)
  | None => (inl (AttributeError "NoneType" a), w)
  end.

(** Allocation of an instance of [ty] with an empty dictionary. *)
Definition new_object (ty : pytype) : M ref := λ w,
  let r := fresh (dom (heap w)) in
  (inr r, set_heap (<[r := Object ty ∅ ∅]> (heap w)) w).

(** [str] arguments of library calls. *)
Definition as_str (v : value) : M string :=
  match v with
  | VStr s => mret s
  | _ => raise (TypeError "expected str, bytes or os.PathLike object")
  end.

(** The text that a replacement field of an f-string gives. *)
Definition format_value (v : value) : string :=
  match v with
  | VStr s => s
  | VNone => "None"
  | VBool true => "True"
  | VBool false => "False"
  | _ => "<object>"
  end.

Definition makedirs (name : string) (exist_ok : bool) : M unit := λ w,
  let '(r, f) := os_makedirs name exist_ok (fs w) in (r, set_fs f w).

(** ** The engine and the library calls *)

(** What the code runs on and does not define. *)
Class Platform : Type := {
  (** What the engine does with a statement other than the pragma and
      savepoint statements that this file issues: its effect on the
      contents of the database and its result, or an error. *)
  sql : string → database → exn + (database * resultset);
  (** The names that the generator behind [tempfile] yields, in the
      order of its draws. *)
  candidate_name : nat → string
}.

Section Library.

Context `{Platform}.

Definition log_statement (q : string) (c : connection) : connection :=
  Connection (c_filename c) (c_synchronous c) (c_journal_mode c) (c_data c)
    (c_savepoints c) (c_executed c ++ [q]).

Definition set_synchronous (v : string) (c : connection) : connection :=
  Connection (c_filename c) v (c_journal_mode c) (c_data c)
    (c_savepoints c) (c_executed c).

Definition set_journal_mode (v : string) (c : connection) : connection :=
  Connection (c_filename c) (c_synchronous c) v (c_data c)
    (c_savepoints c) (c_executed c).

Definition set_data (d : database) (sp : list (string * database))
    (c : connection) : connection :=
  Connection (c_filename c) (c_synchronous c) (c_journal_mode c) d sp
    (c_executed c).

(** One statement on a connection.  Every statement handed to the
    engine is recorded in [c_executed]. *)
Definition sqlite_step (q : string) (c0 : connection)
    : (exn + resultset) * connection :=
  let c := log_statement q c0 in
  match strip_prefix "PRAGMA synchronous = " q with
  | Some v => (inr no_rows, set_synchronous v c)
  | None =>
  match strip_prefix "PRAGMA journal_mode = " q with
  | Some v => (inr no_rows, set_journal_mode v c)
  | None =>
  match strip_prefix "ROLLBACK TO SAVEPOINT " q with
  | Some n =>
      match rollback_to n (c_savepoints c) with
      | Some (d, sp) => (inr no_rows, set_data d sp c)
      | None => (inl (SQLError ("no such savepoint: " +:+ n)), c)
      end
  | None =>
  match strip_prefix "RELEASE SAVEPOINT " q with
  | Some n =>
      match release n (c_savepoints c) with
      | Some sp => (inr no_rows, set_data (c_data c) sp c)
      | None => (inl (SQLError ("no such savepoint: " +:+ n)), c)
      end
  | None =>
  match strip_prefix "SAVEPOINT " q with
  | Some n => (inr no_rows, set_data (c_data c) ((n, c_data c) :: c_savepoints c) c)
  | None =>
      match sql q (c_data c) with
      | inr (d, rs) => (inr rs, set_data d (c_savepoints c) c)
      | inl e => (inl e, c)
      end
  end end end end end.

(** [lite.Connection(filename)]: opens the database file, creating it
    when its directory exists.  Each connection has the contents of its
    file to itself; two connections on one file are not modelled. *)
Definition lite_Connection (filename : string) : M value := λ w,
  match resolve_from (fs w) [] (removelast (os_path.components filename)),
        last (os_path.components filename) with
  | Some d, Some leaf =>
      let l := (d ++ [leaf])%list in
      if negb (is_dir (fs w) d) || is_curdir leaf || is_dir (fs w) l then
        (inl (SQLError "CantOpenError: unable to open database file"), w)
      else
        let c := fresh (dom (conns w)) in
        (inr (VConn c),
         set_conns (<[c := Connection filename "full" "delete" ∅ [] []]> (conns w))
           (set_fs (add_file l (fs w)) w))
  | _, _ => (inl (SQLError "CantOpenError: unable to open database file"), w)
  end.

(** [connection.cursor()]. *)
Definition conn_cursor (db : value) : M value :=
  match db with
  | VConn c => mret (VCursor c)
  | _ => raise (AttributeError "object" "cursor")
  end.

(** [cursor.execute(q)]: the cursor with the result of the statement. *)
Definition cursor_execute (cur : value) (q : string) : M resultset :=
  match cur with
  | VCursor c => λ w,
      match conns w !! c with
      | Some cn =>
          let '(r, cn') := sqlite_step q cn in
          (r, set_conns (<[c := cn']> (conns w)) w)
      | None => (inl (SQLError "ConnectionClosedError"), w)
      end
  | _ => raise (AttributeError "object" "execute")
  end.

(** [cursor.description]: the engine gives no description for a
    statement that has run to its end, which is the case as soon as
    there is no row. *)
Definition cursor_description (rs : resultset) : M (list (string * string)) :=
  match rs_rows rs with
  | [] => raise (SQLError "ExecutionCompleteError")
  | _ => mret (rs_description rs)
  end.

Definition cursor_fetchall (rs : resultset) : M (list (list value)) :=
  mret (rs_rows rs).

(** A [pandas.DataFrame]: named columns and rows. *)
Record dataframe : Type := DataFrame {
  df_columns : list string;
  df_rows : list (list value)
}.

(** [pd.DataFrame(rows, columns=names)]: every row has to have one
    value per column. *)
Definition pd_DataFrame (rows : list (list value)) (columns : list string)
    : M dataframe :=
  if forallb (λ r, bool_decide (length r = length columns)) rows
  then mret (DataFrame columns rows)
  else raise (ValueError "columns passed do not match the data").

(** A named temporary file that is open. *)
Record file_handle : Type := FileHandle {
  fh_name : string;
  fh_location : list string;
  fh_mode : string
}.

Definition TMP_MAX : nat := 100 * 100.

(** The loop of [tempfile._mkstemp_inner]: names are drawn until one is
    free in [dir]; the file is created under that name. *)
Fixpoint mkstemp_inner (fuel : nat) (dirname : string) (dir : list string)
    (pre suf : string) : M (string * list string) :=
  match fuel with
  | 0 => raise (FileExistsError "No usable temporary file name found")
  | S fuel' => λ w,
      let name := pre +:+ candidate_name (draws w) +:+ suf in
      let l := (dir ++ [name])%list in
      let w1 := set_draws (S (draws w)) w in
      if is_file (fs w) l || is_dir (fs w) l then
        mkstemp_inner fuel' dirname dir pre suf w1
      else
        (inr (os_path.join dirname [name], l), set_fs (add_file l (fs w1)) w1)
  end.

Fixpoint kwarg (k : string) (kwargs : list (string * value)) : option value :=
  match kwargs with
  | [] => None
  | (k', v) :: rest => if bool_decide (k' = k) then Some v else kwarg k rest
  end.

Definition kwarg_str (k : string) (dflt : string)
    (kwargs : list (string * value)) : string :=
  match kwarg k kwargs with
  | Some (VStr s) => s
  | _ => dflt
  end.

(** The keyword parameters of [tempfile.NamedTemporaryFile]. *)
Definition NamedTemporaryFile_keywords : list string :=
  ["mode"; "buffering"; "encoding"; "newline"; "suffix"; "prefix"; "dir";
   "delete"; "errors"].

(** [tempfile.NamedTemporaryFile] called with [mode], [dir=dir] and the
    keywords of [kwargs]: a keyword in [kwargs] that repeats [mode] or
    [dir], or that the function does not have, is a [TypeError]; the
    file is created in [dir], which has to be an existing directory. *)
Definition NamedTemporaryFile (mode : string) (dir : string)
    (kwargs : list (string * value)) : M file_handle :=
  if bool_decide (Exists (λ kv, kv.1 = "mode" ∨ kv.1 = "dir") kwargs) then
    raise (TypeError "got multiple values for argument")
  else if bool_decide (Exists (λ kv, kv.1 ∉ NamedTemporaryFile_keywords) kwargs) then
    raise (TypeError "got an unexpected keyword argument")
  else
    f ← gets fs;
    match locate f dir with
    | Some d =>
        if is_dir f d then
          '(name, l) ← mkstemp_inner TMP_MAX dir d
                         (kwarg_str "prefix" "tmp" kwargs)
                         (kwarg_str "suffix" "" kwargs);
          mret (FileHandle name l mode)
        else if is_file f d then raise (NotADirectoryError dir)
        else raise (FileNotFoundError dir)
    | None => raise (FileNotFoundError dir)
    end.

End Library.

(** ** [class relational_db] *)

Module relational_db.
Section Methods.

Context `{Platform}.

Definition type : pytype := PyType "relational_db" (λ _, None) false.

(** [relational_db.__init__(self, basedir)]. *)
Definition __init__ (self : ref) (basedir : value) : M unit :=
  b ← as_str basedir;
  h ← gets home;
  setattr self "filename"
    (VStr (os_path.expanduser h (os_path.join b ["db.sqlite"])));;
  f ← getattr self "filename";
  f ← as_str f;
  c ← lite_Connection f;
  setattr self "db" c.

(** [relational_db(basedir)]. *)
Definition new (basedir : value) : M ref :=
  self ← new_object type;
  __init__ self basedir;;
  mret self.

Definition cursor (self : ref) : M value :=
  db ← getattr self "db";
  conn_cursor db.

(** [with self.bulk_transaction() as cur: body cur].  The generator
    runs up to its [yield], the body of the [with] statement runs in
    its place, and an exception of the body is thrown into the
    generator at the [yield]. *)
Definition bulk_transaction {A : Type} (self : ref) (body : value → M A)
    : M A :=
  db ← getattr self "_db";
  cur ← conn_cursor db;
  cursor_execute cur "PRAGMA synchronous = off";;
  cursor_execute cur "PRAGMA journal_mode = memory";;
  cursor_execute cur "SAVEPOINT m80_bulk_transaction";;
  try_finally
    (try_except (body cur)
       (λ e,
          if is_Exception e then
            cursor_execute cur "ROLLBACK TO SAVEPOINT m80_bulk_transaction";;
            raise e
          else raise e))
    (cursor_execute cur "RELEASE SAVEPOINT m80_bulk_transaction";; mret ()).

Definition query (self : ref) (q : string) : M dataframe :=
  db ← getattr self "_db";
  c ← conn_cursor db;
  cur ← cursor_execute c q;
  description ← cursor_description cur;
  let names := fst <$> description in
  rows ← cursor_fetchall cur;
  result ← pd_DataFrame rows names;
  mret result.

End Methods.
End relational_db.

(** ** [class Freezable] *)

(** Modelled from the spec: [Tools.guess_type], which is imported and
    not defined in this file.  The spec has it return a stable kind
    string for the concrete type of the object; here that is the name
    of the object's class. *)
Definition guess_type (self : ref) : M string := λ w,
  match heap w !! self with
  | Some o => (inr (ty_name (obj_type o)), w)
  | None => (inl (TypeError "guess_type: no object"), w)
  end.

(** Modelled from the spec: [SQLiteDict.sqlite_dict], which is imported
    and not defined in this file.  The spec has it be a mapping layered
    on the relational store that it is given. *)
Definition sqlite_dict (db : value) : M value := mret (VKeyVal db).

(** Modelled from the spec: the method [_m80_add_child], which the
    constructor calls on the parent and which this file does not define.
    The spec has it register the new object in the child registry of
    the parent, a set of object references.  A parent whose type does
    not have the method makes the call an [AttributeError]. *)
Definition _m80_add_child (parent child : ref) : M unit := λ w,
  match heap w !! parent with
  | Some o =>
      if ty_add_child (obj_type o) then
        (inr (),
         set_heap
           (<[parent := Object (obj_type o) (obj_dict o)
                          ({[ child ]} ∪ obj_children o)]> (heap w)) w)
      else (inl (AttributeError (ty_name (obj_type o)) "_m80_add_child"), w)
  | None => (inl (AttributeError "NoneType" "_m80_add_child"), w)
  end.

Module Freezable.
Section Methods.

Context `{Platform}.

(** The class itself: no member beyond the methods below. *)
Definition type : pytype := PyType "Freezable" (λ _, None) false.

(** The first part of [Freezable.__init__]: the name, the kind and the
    directory of the object, and with a parent the registration with
    it. *)
Definition init_resolve (self : ref) (name : string) (parent : option ref)
    (basedir : option string) : M unit :=
  setattr self "_m80_name" (VStr name);;
  dtype ← guess_type self;
  setattr self "_m80_dtype" (VStr dtype);;
  basedir ← match basedir with
            | None => gets cf_basedir
            | Some b => mret b
            end;
  match parent with
  | None =>
      dtype ← getattr self "_m80_dtype";
      name ← getattr self "_m80_name";
      setattr self "_m80_basedir"
        (VStr (os_path.join basedir
                 ["databases"; format_value dtype +:+ "." +:+ format_value name]));;
      setattr self "_m80_parent" VNone
  | Some parent =>
      pdir ← getattr parent "_m80_basedir";
      pdir ← as_str pdir;
      dtype ← getattr self "_m80_dtype";
      name ← getattr self "_m80_name";
      setattr self "_m80_basedir"
        (VStr (os_path.join pdir
                 [format_value dtype +:+ "." +:+ format_value name]));;
      setattr self "_m80_parent" (VRef parent);;
      p ← getattr self "_m80_parent";
      match p with
      | VRef p => _m80_add_child p self
      | _ => raise (AttributeError "NoneType" "_m80_add_child")
      end
  end.

(** The second part: [os.makedirs(self._m80_basedir, exist_ok=True)]. *)
Definition init_makedirs (self : ref) : M unit :=
  d ← getattr self "_m80_basedir";
  d ← as_str d;
  makedirs d true.

(** The last part: the relational store and the key-value store. *)
Definition init_stores (self : ref) : M unit :=
  b ← getattr self "basedir";
  db ← relational_db.new b;
  setattr self "_m80db" (VRef db);;
  d ← getattr self "_db";
  kv ← sqlite_dict d;
  setattr self "_m80_dict" kv.

(** [Freezable.__init__(self, name, parent=None, basedir=None)]. *)
Definition __init__ (self : ref) (name : string) (parent : option ref)
    (basedir : option string) : M unit :=
  init_resolve self name parent basedir;;
  init_makedirs self;;
  init_stores self.

(** [T(name, parent, basedir)] for a concrete type [T]. *)
Definition new (ty : pytype) (name : string) (parent : option ref)
    (basedir : option string) : M ref :=
  self ← new_object ty;
  __init__ self name parent basedir;;
  mret self.

(** The static method [Freezable._tmpfile], which takes any positional
    and keyword arguments; the positional arguments are not used. *)
Definition _tmpfile (args : list value) (kwargs : list (string * value))
    : M file_handle :=
  basedir ← gets cf_basedir;
  h ← gets home;
  NamedTemporaryFile "w"
    (os_path.expanduser h (os_path.join basedir ["tmp"])) kwargs.

(** [Freezable._get_dbpath(self, extension, create=False)]. *)
Definition _get_dbpath (self : ref) (extension : string) (create : bool)
    : M string :=
  b ← getattr self "_basedir";
  b ← as_str b;
  h ← gets home;
  let path := os_path.expanduser h (os_path.join b [extension]) in
  (if create then makedirs path true else mret ());;
  mret path.

End Methods.
End Freezable.

(** ** Observations *)

(** The storage directory of an object: its [_m80_basedir] attribute. *)
Definition directory_of (r : ref) (w : world) : option value :=
  o ← heap w !! r; obj_dict o !! "_m80_basedir".

(** The child registry of an object. *)
Definition children_of (r : ref) (w : world) : option (gset ref) :=
  obj_children <$> heap w !! r.

(** The object that the next construction allocates. *)
Definition instance (w : world) : ref := fresh (dom (heap w)).

(** The instance dictionary after resolution without a parent. *)
Definition root_dict (ty : pytype) (base name : string)
    (d : gmap string value) : gmap string value :=
  <["_m80_parent" := VNone]>
    (<["_m80_basedir" :=
         VStr (os_path.join base ["databases"; ty_name ty +:+ "." +:+ name])]>
       (<["_m80_dtype" := VStr (ty_name ty)]>
          (<["_m80_name" := VStr name]> d))).

(** The instance dictionary after resolution under a parent whose
    directory is [pdir]. *)
Definition child_dict (ty : pytype) (pdir name : string) (parent : ref)
    (d : gmap string value) : gmap string value :=
  <["_m80_parent" := VRef parent]>
    (<["_m80_basedir" :=
         VStr (os_path.join pdir [ty_name ty +:+ "." +:+ name])]>
       (<["_m80_dtype" := VStr (ty_name ty)]>
          (<["_m80_name" := VStr name]> d))).


(** The connection [cnb] that the body has left, with the contents [d],
    the savepoints [sp] and the statements [qs] of the way out. *)
Definition closed (d : database) (sp : list (string * database))
    (qs : list string) (cnb : connection) : connection :=
  Connection (c_filename cnb) (c_synchronous cnb) (c_journal_mode cnb) d sp
    (c_executed cnb ++ qs).

(** The directory that [Freezable._tmpfile] asks for. *)
Definition tmp_directory (w : world) : string :=
  os_path.expanduser (home w) (os_path.join (cf_basedir w) ["tmp"]).

(** The exceptions of the interpreter and of the libraries, as opposed
    to the classes that an application defines. *)
Definition builtin (e : exn) : Prop :=
  match e with
  | UserError _ _ | BaseOnly _ => False
  | _ => True
  end.

(** [m] keeps [I] true, whatever its outcome. *)
Definition preserves {A : Type} (I : world → Prop) (m : M A) : Prop :=
  ∀ w, I w → I (m w).2.

(** An invariant that does not look at the heap. *)
Definition heap_blind (I : world → Prop) : Prop :=
  ∀ w h, I w → I (set_heap h w).

(** An invariant that does not look at the filesystem, the connections
    and the draws of names. *)
Definition fs_blind (I : world → Prop) : Prop :=
  ∀ w f c n, I w → I (set_draws n (set_conns c (set_fs f w))).

(** An invariant that may look at the directories, and not at the
    files, the connections and the draws of names. *)
Definition files_blind (I : world → Prop) : Prop :=
  ∀ w F c n, I w →
    I (set_draws n (set_conns c (set_fs (Filesystem (fs_dirs (fs w)) F) w))).

(** An invariant that every step of this file keeps, but for the
    assignment of the directory attribute and the registration of a
    child. *)
Record stable (I : world → Prop) : Prop := Stable {
  stable_setattr :
    ∀ r a v, a ≠ "_m80_basedir" → preserves I (setattr r a v);
  stable_new_object : ∀ ty, preserves I (new_object ty);
  stable_makedirs : ∀ name e, preserves I (makedirs name e);
  stable_files : files_blind I
}.

(** The invariants that the properties below follow through a
    construction. *)
Definition dir_inv (r : ref) (v : value) (w : world) : Prop :=
  directory_of r w = Some v.

Definition children_inv (r : ref) (s : gset ref) (w : world) : Prop :=
  children_of r w = Some s.

Definition cf_inv (b : string) (w : world) : Prop := cf_basedir w = b.

Definition type_inv (r : ref) (ty : pytype) (w : world) : Prop :=
  obj_type <$> heap w !! r = Some ty.

Definition disk_inv (d : string) (w : world) : Prop :=
  isdir (fs w) d = true.

(** A parent that a construction can use: an object with a directory
    and with the registration method. *)
Definition parent_ready (parent : option ref) (w : world) : Prop :=
  match parent with
  | None => True
  | Some p =>
      ∃ po pdir, heap w !! p = Some po
        ∧ obj_dict po !! "_m80_basedir" = Some (VStr pdir)
        ∧ ty_add_child (obj_type po) = true
  end.

(** [m] raises only exceptions that satisfy [P]. *)
Definition raises_only {A : Type} (P : exn → Prop) (m : M A) : Prop :=
  ∀ w e w', m w = (inl e, w') → P e.

(** A path separator or a null byte in a name. *)
Fixpoint illegal_name (s : string) : bool :=
  match s with
  | EmptyString => false
  | String c t =>
      bool_decide (c = os_path.sep) || bool_decide (c = Ascii.zero)
      || illegal_name t
  end.

(** ** Batches of statements *)


Section Batches.

Context `{Platform}.

(** The body [for q in qs: cur.execute(q)] of a [with] block. *)
Fixpoint execute_all (qs : list string) (cur : value) : M unit :=
  match qs with
  | [] => mret ()
  | q :: rest => cursor_execute cur q;; execute_all rest cur
  end.


End Batches.

(** An object of type [ty] whose dictionary has no entry [a]. *)
Definition lacks_inv (r : ref) (ty : pytype) (a : string) (w : world) : Prop :=
  ∃ o, heap w !! r = Some o ∧ obj_type o = ty ∧ obj_dict o !! a = None.

(** ** What a construction leaves of the objects and connections
    that were there *)

(** The object [r] is there with the class and the attributes of [o],
    and with at least the children of [o]. *)
Definition kept_inv (r : ref) (o : object) (w : world) : Prop :=
  ∃ o', heap w !! r = Some o'
    ∧ obj_type o' = obj_type o
    ∧ obj_dict o' = obj_dict o
    ∧ obj_children o ⊆ obj_children o'.

Definition conn_inv (c : nat) (cn : connection) (w : world) : Prop :=
  conns w !! c = Some cn.

(** ** A concrete platform and concrete objects *)

Module Sample.

(** An engine with one table [t] of one column [x]. *)
Definition sample_sql (q : string) (d : database)
    : exn + (database * resultset) :=
  if bool_decide (q = "INSERT INTO t VALUES (1)") then
    inr (<["t" := (default [] (d !! "t") ++ [[VInt 1]])%list]> d, no_rows)
  else if bool_decide (q = "SELECT x FROM t") then
    inr (d, ResultSet [("x", "INTEGER")] (default [] (d !! "t")))
  else if bool_decide (q = "SELECT 1 AS one, 2 AS two") then
    inr (d, ResultSet [("one", ""); ("two", "")] [[VInt 1; VInt 2]])
  else inl (SQLError "syntax error").

#[export] Instance platform : Platform :=
  {| sql := sample_sql; candidate_name := λ n, "k3x_" +:+ pretty n |}.

(** A base directory [/data] that exists and has no [tmp] in it. *)
Definition w0 : world :=
  World ∅ (Filesystem {[ ["data"] ]} ∅) ∅ "/data" "/home/user" 0.

(** The same with [/data/tmp]. *)
Definition w_tmp : world :=
  set_fs (Filesystem {[ ["data"]; ["data"; "tmp"] ]} ∅) w0.

(** A concrete type that has the members which [Freezable.__init__]
    reads and this file does not define: [basedir] gives the storage
    directory, [_db] the relational store, and [_m80_add_child] is
    there. *)
Definition members (a : string) : option (gmap string value → value) :=
  if bool_decide (a = "basedir") then
    Some (λ d, default VNone (d !! "_m80_basedir"))
  else if bool_decide (a = "_db") then
    Some (λ d, default VNone (d !! "_m80db"))
  else None.

Definition Cohort : pytype := PyType "Cohort" members true.

Definition Locus : pytype := PyType "Locus" members true.

(** The world after the construction of the [Cohort] named [foo], which
    is object [0], and that object. *)
Definition w_foo : world := (Freezable.new Cohort "foo" None None w0).2.

Definition foo : object := default (Object Cohort ∅ ∅) (heap w_foo !! 0).

(** A relational store opened on [/data]: object [0]. *)
Definition w_store : world := (relational_db.new (VStr "/data") w0).2.

(** The store after the assignment [store._db = store.db], which no
    code of this file makes. *)
Definition w_patched : world := (setattr 0 "_db" (VConn 0) w_store).2.

(** The body of a [with] block that inserts a row and then fails. *)
Definition failing_body (cur : value) : M unit :=
  cursor_execute cur "INSERT INTO t VALUES (1)";;
  raise (UserError "DeliberateError" "deliberate").

(** The body of a [with] block that inserts a row. *)
Definition writing_body (cur : value) : M unit :=
  cursor_execute cur "INSERT INTO t VALUES (1)";;
  mret ().

(** The patched store, which is object [0], and its connection [0]. *)
Definition store : object :=
  default (Object relational_db.type ∅ ∅) (heap w_patched !! 0).

Definition store_conn : connection :=
  default (Connection EmptyString EmptyString EmptyString ∅ [] [])
    (conns w_patched !! 0).

(** Batches: two rows; a row and then a statement that the engine
    refuses; a row and then a statement during which the engine is
    interrupted. *)
Definition two_inserts : list string :=
  ["INSERT INTO t VALUES (1)"; "INSERT INTO t VALUES (1)"].

Definition insert_then_error : list string :=
  ["INSERT INTO t VALUES (1)"; "INSERT INTO u VALUES (1)"].









(** The world after the construction of the base class itself, which
    raises; object [0] has its directory by then. *)
Definition w_base : world :=
  (Freezable.new Freezable.type "foo" None None w0).2.

Definition base : object :=
  default (Object Freezable.type ∅ ∅) (heap w_base !! 0).

(** The [Cohort] named [foo] with the assignment
    [foo._basedir = foo._m80_basedir], which no code of this file
    makes. *)
Definition w_basedir : world :=
  (setattr 0 "_basedir" (VStr "/data/databases/Cohort.foo") w_foo).2.

End Sample.

(** * Properties *)

Section Proofs.

Context `{Platform}.

(** ** Running a computation *)

Lemma bind_unfold {A B : Type} (m : M A) (f : A → M B) (w : world) :
  (m ≫= f) w
  = match m w with
    | (inr a, w') => f a w'
    | (inl e, w') => (inl e, w')
    end.
Proof. reflexivity. Qed.


Lemma setattr_eq r a v w o :
  heap w !! r = Some o →
  setattr r a v w
  = (inr (),
     set_heap
       (<[r := Object (obj_type o) (<[a := v]> (obj_dict o)) (obj_children o)]>
          (heap w)) w).
Proof. intros Ho. unfold setattr. by rewrite Ho. Qed.

Lemma getattr_dict r a w o v :
  heap w !! r = Some o → obj_dict o !! a = Some v → getattr r a w = (inr v, w).
Proof. intros Ho Hv. unfold getattr. by rewrite Ho, Hv. Qed.

Lemma guess_type_eq r w o :
  heap w !! r = Some o → guess_type r w = (inr (ty_name (obj_type o)), w).
Proof. intros Ho. unfold guess_type. by rewrite Ho. Qed.

Lemma add_child_eq p c w o :
  heap w !! p = Some o → ty_add_child (obj_type o) = true →
  _m80_add_child p c w
  = (inr (),
     set_heap
       (<[p := Object (obj_type o) (obj_dict o) ({[ c ]} ∪ obj_children o)]>
          (heap w)) w).
Proof. intros Ho Hc. unfold _m80_add_child. by rewrite Ho, Hc. Qed.

Lemma basedir_default (basedir : option string) (w : world) :
  match basedir with
  | Some b => mret b
  | None => gets cf_basedir
  end w = (inr (default (cf_basedir w) basedir), w).
Proof. by destruct basedir. Qed.

Lemma ret_unfold {A : Type} (a : A) (w : world) :
  (mret a : M A) w = (inr a, w).
Proof. reflexivity. Qed.

Lemma gets_unfold {A : Type} (f : world → A) (w : world) :
  gets f w = (inr (f w), w).
Proof. reflexivity. Qed.

Lemma as_str_eq (s : string) (w : world) : as_str (VStr s) w = (inr s, w).
Proof. reflexivity. Qed.

Ltac heap_lookup :=
  simpl; first [ eassumption | apply lookup_insert_eq
               | rewrite lookup_insert_ne by done; heap_lookup ].

(** One statement of a sequence whose effect on the heap is known. *)
Ltac mstep :=
  rewrite bind_unfold;
  first [ erewrite setattr_eq by heap_lookup
        | erewrite getattr_dict by heap_lookup
        | erewrite guess_type_eq by heap_lookup
        | rewrite basedir_default
        | rewrite as_str_eq
        | rewrite gets_unfold
        | rewrite ret_unfold ];
  cbv beta iota.

(** ** Paths *)

Lemma app_String c s t : String c s +:+ t = String c (s +:+ t).
Proof. reflexivity. Qed.

Lemma app_assoc_str (s t u : string) : (s +:+ t) +:+ u = s +:+ t +:+ u.
Proof.
  induction s as [|c s IH]; [done|]. rewrite !app_String. by f_equal.
Qed.

Lemma app_nonempty s t : t ≠ "" → s +:+ t ≠ "".
Proof. intros Ht. destruct s; [done|]. by rewrite app_String. Qed.

Lemma endswith_sep_app s t :
  t ≠ "" → os_path.endswith_sep (s +:+ t) = os_path.endswith_sep t.
Proof.
  intros Ht. induction s as [|c s IH]; [done|]. rewrite app_String.
  pose proof (app_nonempty s t Ht) as Hne.
  simpl. destruct (s +:+ t) eqn:E; [done|]. done.
Qed.

Lemma join_step_relative path b :
  os_path.startswith_sep b = false →
  os_path.join_step path b
  = (if bool_decide (path = "") || os_path.endswith_sep path
     then path else path +:+ "/") +:+ b.
Proof.
  intros Hb. unfold os_path.join_step. rewrite Hb.
  destruct (bool_decide (path = "") || os_path.endswith_sep path); [done|].
  by rewrite app_assoc_str.
Qed.

(** Where the last component does not start with a separator, the
    path is the base directory, [databases] and the component, with
    single separators between them. *)
Lemma join_databases base kn :
  os_path.startswith_sep kn = false →
  os_path.join base ["databases"; kn]
  = (if bool_decide (base = "") || os_path.endswith_sep base
     then base else base +:+ "/") +:+ "databases/" +:+ kn.
Proof.
  intros Hkn. unfold os_path.join. simpl.
  rewrite (join_step_relative base "databases") by done.
  set (P := if bool_decide (base = "") || os_path.endswith_sep base
            then base else base +:+ "/").
  rewrite (join_step_relative _ kn) by done.
  rewrite bool_decide_eq_false_2 by (by apply app_nonempty).
  rewrite endswith_sep_app by done. simpl.
  by rewrite !app_assoc_str.
Qed.

Lemma kind_name_no_sep kind name :
  kind ≠ "" → os_path.startswith_sep kind = false →
  os_path.startswith_sep (kind +:+ "." +:+ name) = false.
Proof. by destruct kind. Qed.

(** ** Directory resolution *)

Lemma init_resolve_root self name basedir w o :
  heap w !! self = Some o →
  Freezable.init_resolve self name None basedir w
  = (inr (),
     set_heap
       (<[self := Object (obj_type o)
                    (root_dict (obj_type o) (default (cf_basedir w) basedir)
                       name (obj_dict o))
                    (obj_children o)]> (heap w)) w).
Proof.
  intros Ho. unfold Freezable.init_resolve.
  do 7 mstep. erewrite setattr_eq by heap_lookup.
  simpl. unfold set_heap; simpl. by rewrite !insert_insert_eq.
Qed.

Lemma init_resolve_child self name parent basedir w o po pdir :
  self ≠ parent →
  heap w !! self = Some o →
  heap w !! parent = Some po →
  obj_dict po !! "_m80_basedir" = Some (VStr pdir) →
  ty_add_child (obj_type po) = true →
  Freezable.init_resolve self name (Some parent) basedir w
  = (inr (),
     set_heap
       (<[parent := Object (obj_type po) (obj_dict po)
                      ({[ self ]} ∪ obj_children po)]>
          (<[self := Object (obj_type o)
                       (child_dict (obj_type o) pdir name parent (obj_dict o))
                       (obj_children o)]> (heap w))) w).
Proof.
  intros Hne Ho Hpo Hpdir Hadd. unfold Freezable.init_resolve.
  do 5 mstep. rewrite bind_unfold. simpl. do 5 mstep.
  erewrite add_child_eq; [| heap_lookup | done].
  simpl. unfold set_heap; simpl. by rewrite !insert_insert_eq.
Qed.

(** ** What a computation leaves as it is *)

Lemma preserves_bind {A B : Type} (I : world → Prop) (m : M A) (f : A → M B) :
  preserves I m → (∀ a, preserves I (f a)) → preserves I (m ≫= f).
Proof.
  intros Hm Hf w Hw. rewrite bind_unfold.
  specialize (Hm w Hw). destruct (m w) as [[e|a] w']; simpl in *; [done|].
  by apply Hf.
Qed.

Lemma preserves_ret {A : Type} (I : world → Prop) (a : A) :
  preserves I (mret a).
Proof. by intros w Hw. Qed.

Lemma preserves_raise {A : Type} (I : world → Prop) (e : exn) :
  preserves I (raise e : M A).
Proof. by intros w Hw. Qed.

Lemma preserves_gets {A : Type} (I : world → Prop) (f : world → A) :
  preserves I (gets f).
Proof. by intros w Hw. Qed.

Lemma preserves_getattr (I : world → Prop) r a : preserves I (getattr r a).
Proof. intros w Hw. unfold getattr. by repeat case_match. Qed.

Lemma preserves_guess_type (I : world → Prop) r : preserves I (guess_type r).
Proof. intros w Hw. unfold guess_type. by case_match. Qed.

Lemma preserves_as_str (I : world → Prop) v : preserves I (as_str v).
Proof. intros w Hw. by destruct v. Qed.

Lemma preserves_sqlite_dict (I : world → Prop) v : preserves I (sqlite_dict v).
Proof. by intros w Hw. Qed.

Lemma preserves_conn_cursor (I : world → Prop) v : preserves I (conn_cursor v).
Proof. intros w Hw. by destruct v. Qed.

Lemma preserves_setattr_blind (I : world → Prop) r a v :
  heap_blind I → preserves I (setattr r a v).
Proof. intros HI w Hw. unfold setattr. case_match; [by apply HI | done]. Qed.

Lemma preserves_new_object_blind (I : world → Prop) ty :
  heap_blind I → preserves I (new_object ty).
Proof. intros HI w Hw. by apply HI. Qed.

Lemma preserves_add_child_blind (I : world → Prop) p c :
  heap_blind I → preserves I (_m80_add_child p c).
Proof.
  intros HI w Hw. unfold _m80_add_child. repeat case_match; try done.
  by apply HI.
Qed.

Lemma filesystem_eta (f : filesystem) :
  Filesystem (fs_dirs f) (fs_files f) = f.
Proof. by destruct f. Qed.

Lemma files_blind_fs (I : world → Prop) w F :
  files_blind I → I w → I (set_fs (Filesystem (fs_dirs (fs w)) F) w).
Proof.
  intros HI Hw. specialize (HI w F (conns w) (draws w) Hw).
  by destruct w.
Qed.

Lemma files_blind_conns (I : world → Prop) w c :
  files_blind I → I w → I (set_conns c w).
Proof.
  intros HI Hw. specialize (HI w (fs_files (fs w)) c (draws w) Hw).
  rewrite filesystem_eta in HI. by destruct w.
Qed.

(** [os.makedirs] adds directories and nothing else. *)
Lemma makedirs_walk_grows name cur comps f :
  fs_dirs f ⊆ fs_dirs (makedirs_walk name cur comps f).2
  ∧ fs_files (makedirs_walk name cur comps f).2 = fs_files f.
Proof.
  revert cur f. induction comps as [|c rest IH]; intros cur f; simpl; [done|].
  destruct (has_nul c); [done|].
  destruct (is_curdir c); [apply IH|].
  case_bool_decide; [apply IH|].
  destruct (is_dir f (cur ++ [c])%list); [apply IH|].
  destruct (is_file f (cur ++ [c])%list); [done|].
  destruct (IH (cur ++ [c])%list (add_dir (cur ++ [c])%list f)) as [Hd Hf].
  split; [|by rewrite Hf]. etrans; [|apply Hd]. apply union_subseteq_r.
Qed.

Lemma os_makedirs_grows name e f :
  fs_dirs f ⊆ fs_dirs (os_makedirs name e f).2
  ∧ fs_files (os_makedirs name e f).2 = fs_files f.
Proof.
  unfold os_makedirs. repeat case_match; simpl; try done.
  apply makedirs_walk_grows.
Qed.

Lemma preserves_makedirs (I : world → Prop) name e :
  fs_blind I → preserves I (makedirs name e).
Proof.
  intros HI w Hw. unfold makedirs.
  destruct (os_makedirs name e (fs w)) as [r f]. simpl.
  specialize (HI w f (conns w) (draws w) Hw). by destruct w.
Qed.

Lemma preserves_lite_Connection (I : world → Prop) filename :
  files_blind I → preserves I (lite_Connection filename).
Proof.
  intros HI w Hw. unfold lite_Connection. repeat case_match; try done.
  cbn [snd]. apply files_blind_conns; [done|]. unfold add_file.
  by apply files_blind_fs.
Qed.

Lemma preserves_cursor_execute (I : world → Prop) cur q :
  files_blind I → preserves I (cursor_execute cur q).
Proof.
  intros HI w Hw. unfold cursor_execute. repeat case_match; try done.
  cbn [snd]. by apply files_blind_conns.
Qed.

Ltac frame_step :=
  first
    [ apply preserves_bind; [| intros ?]
    | apply preserves_ret | apply preserves_raise | apply preserves_gets
    | apply preserves_getattr | apply preserves_guess_type
    | apply preserves_as_str | apply preserves_sqlite_dict
    | apply preserves_conn_cursor
    | apply preserves_lite_Connection; [by apply stable_files]
    | apply preserves_cursor_execute; [by apply stable_files]
    | apply stable_makedirs; [done]
    | apply stable_new_object; [done]
    | apply stable_setattr; [done | done] ].

Ltac frame := repeat frame_step.

(** The same for an invariant that does not look at the heap. *)
Ltac frame_blind :=
  repeat first
    [ frame_step
    | apply preserves_setattr_blind; [done]
    | apply preserves_add_child_blind; [done]
    | case_match ].

Lemma preserves_init_makedirs (I : world → Prop) self :
  stable I → preserves I (Freezable.init_makedirs self).
Proof. intros HI. unfold Freezable.init_makedirs. frame. Qed.

Lemma preserves_init_stores (I : world → Prop) self :
  stable I → preserves I (Freezable.init_stores self).
Proof.
  intros HI. unfold Freezable.init_stores. frame.
Qed.

Lemma stable_dir_inv r v : stable (dir_inv r v).
Proof.
  split.
  - intros r' a v' Ha w Hw. unfold setattr.
    destruct (heap w !! r') as [o'|] eqn:Ho'; [|done].
    unfold dir_inv, directory_of in *. simpl.
    destruct (decide (r' = r)) as [->|Hr].
    + rewrite lookup_insert_eq. rewrite Ho' in Hw. simpl in *.
      by rewrite lookup_insert_ne.
    + by rewrite lookup_insert_ne.
  - intros ty w Hw. unfold dir_inv, directory_of in *. simpl.
    destruct (decide (fresh (dom (heap w)) = r)) as [Hr|Hr].
    + destruct (heap w !! r) as [o|] eqn:Ho; [|done].
      apply (elem_of_dom_2 (heap w)) in Ho. rewrite <- Hr in Ho.
      by apply is_fresh in Ho.
    + by rewrite lookup_insert_ne.
  - intros name e. apply preserves_makedirs. by intros w f c n Hw.
  - by intros w F c n Hw.
Qed.

Lemma stable_children_inv r s : stable (children_inv r s).
Proof.
  split.
  - intros r' a v' _ w Hw. unfold setattr.
    destruct (heap w !! r') as [o'|] eqn:Ho'; [|done].
    unfold children_inv, children_of in *. simpl.
    destruct (decide (r' = r)) as [->|Hr].
    + rewrite lookup_insert_eq. by rewrite Ho' in Hw.
    + by rewrite lookup_insert_ne.
  - intros ty w Hw. unfold children_inv, children_of in *. simpl.
    destruct (decide (fresh (dom (heap w)) = r)) as [Hr|Hr].
    + destruct (heap w !! r) as [o|] eqn:Ho; [|done].
      apply (elem_of_dom_2 (heap w)) in Ho. rewrite <- Hr in Ho.
      by apply is_fresh in Ho.
    + by rewrite lookup_insert_ne.
  - intros name e. apply preserves_makedirs. by intros w f c n Hw.
  - by intros w F c n Hw.
Qed.

Lemma stable_cf_inv b : stable (cf_inv b).
Proof.
  split.
  - intros r a v _. apply preserves_setattr_blind. by intros w h Hw.
  - intros ty. apply preserves_new_object_blind. by intros w h Hw.
  - intros name e. apply preserves_makedirs. by intros w f c n Hw.
  - by intros w F c n Hw.
Qed.


(** ** Construction *)

Lemma preserves_init_tail (I : world → Prop) self :
  stable I →
  preserves I (Freezable.init_makedirs self;; Freezable.init_stores self).
Proof.
  intros HI. apply preserves_bind; [by apply preserves_init_makedirs|].
  intros _. by apply preserves_init_stores.
Qed.

(** The constructor after the allocation of [self]: resolution, then
    the rest; the world that is left is the one that the rest leaves. *)
Lemma new_after_resolve ty name parent basedir w w1 :
  Freezable.init_resolve (instance w) name parent basedir (new_object ty w).2
  = (inr (), w1) →
  (Freezable.new ty name parent basedir w).2
  = ((Freezable.init_makedirs (instance w);;
      Freezable.init_stores (instance w)) w1).2.
Proof.
  intros Hres. unfold Freezable.new, Freezable.__init__.
  rewrite bind_unfold. change (new_object ty w) with
    (inr (instance w) : exn + ref, (new_object ty w).2).
  cbv beta iota. rewrite !bind_unfold, Hres. cbv beta iota.
  rewrite ?bind_unfold.
  destruct (Freezable.init_makedirs (instance w) w1) as [[e|[]] w2]; [done|].
  by destruct (Freezable.init_stores (instance w) w2) as [[e|[]] w3].
Qed.

Lemma new_returns_instance ty name parent basedir w self w' :
  Freezable.new ty name parent basedir w = (inr self, w') → self = instance w.
Proof.
  unfold Freezable.new. rewrite bind_unfold.
  change (new_object ty w) with
    (inr (instance w) : exn + ref, (new_object ty w).2).
  cbv beta iota. rewrite bind_unfold.
  destruct (Freezable.__init__ _ _ _ _ _) as [[e|[]] w2]; [done|].
  by intros [= <- _].
Qed.

Lemma new_object_lookup ty w :
  heap (new_object ty w).2 !! instance w = Some (Object ty ∅ ∅).
Proof. unfold new_object, instance. simpl. apply lookup_insert_eq. Qed.

Lemma new_root_directory ty name basedir w :
  directory_of (instance w) (Freezable.new ty name None basedir w).2
  = Some (VStr (os_path.join (default (cf_basedir w) basedir)
                  ["databases"; ty_name ty +:+ "." +:+ name])).
Proof.
  erewrite new_after_resolve;
    [| by apply init_resolve_root, new_object_lookup ].
  apply (preserves_init_tail (dir_inv (instance w) _));
    [apply stable_dir_inv|].
  unfold dir_inv, directory_of. simpl. rewrite lookup_insert_eq. simpl.
  unfold root_dict. rewrite lookup_insert_ne by done.
  by rewrite lookup_insert_eq.
Qed.

(** With a kind that is a class name, the directory is the base
    directory, [databases] and [{kind}.{name}], separated by single
    separators. *)
Lemma new_root_directory_explicit ty name basedir w :
  ty_name ty ≠ "" → os_path.startswith_sep (ty_name ty) = false →
  directory_of (instance w) (Freezable.new ty name None basedir w).2
  = Some (VStr ((if bool_decide (default (cf_basedir w) basedir = "")
                    || os_path.endswith_sep (default (cf_basedir w) basedir)
                 then default (cf_basedir w) basedir
                 else default (cf_basedir w) basedir +:+ "/")
                +:+ "databases/" +:+ ty_name ty +:+ "." +:+ name)).
Proof.
  intros Hne Hsep. rewrite new_root_directory.
  by rewrite join_databases by (by apply kind_name_no_sep).
Qed.

Lemma preserves_new (I : world → Prop) ty name parent basedir :
  stable I → heap_blind I →
  preserves I (Freezable.new ty name parent basedir).
Proof.
  intros HI Hblind. unfold Freezable.new, Freezable.__init__.
  apply preserves_bind; [by apply stable_new_object|]. intros self.
  apply preserves_bind; [|intros; apply preserves_ret].
  apply preserves_bind; [|intros; by apply preserves_init_tail].
  unfold Freezable.init_resolve. frame_blind.
Qed.

Lemma new_keeps_cf_basedir ty name parent basedir w :
  cf_basedir (Freezable.new ty name parent basedir w).2 = cf_basedir w.
Proof.
  apply (preserves_new (cf_inv (cf_basedir w))); [apply stable_cf_inv| |done].
  by intros w' h Hw'.
Qed.

(** C1. A Freezable constructed with a name and no parent has the
    storage directory [join(baseDir, 'databases', '{kind}.{name}')],
    where [baseDir] is the argument or else the configured base
    directory and [kind] is the name of the concrete type.  The
    directory is this function of the inputs in every world, and a
    second construction with the same inputs, after the first, resolves
    the same directory. *)
Theorem root_directory_resolved ty name basedir w :
  directory_of (instance w) (Freezable.new ty name None basedir w).2
  = Some (VStr (os_path.join (default (cf_basedir w) basedir)
                  ["databases"; ty_name ty +:+ "." +:+ name]))
  ∧ directory_of (instance (Freezable.new ty name None basedir w).2)
      (Freezable.new ty name None basedir
         (Freezable.new ty name None basedir w).2).2
    = directory_of (instance w) (Freezable.new ty name None basedir w).2.
Proof.
  split; [apply new_root_directory|].
  by rewrite !new_root_directory, new_keeps_cf_basedir.
Qed.

Lemma instance_fresh w r o : heap w !! r = Some o → instance w ≠ r.
Proof.
  intros Ho Heq. apply (elem_of_dom_2 (heap w)) in Ho.
  rewrite <- Heq in Ho. by apply (is_fresh (dom (heap w))).
Qed.

Lemma new_child_resolved ty name parent basedir w po pdir :
  heap w !! parent = Some po →
  obj_dict po !! "_m80_basedir" = Some (VStr pdir) →
  ty_add_child (obj_type po) = true →
  Freezable.init_resolve (instance w) name (Some parent) basedir
    (new_object ty w).2
  = (inr (),
     set_heap
       (<[parent := Object (obj_type po) (obj_dict po)
                      ({[ instance w ]} ∪ obj_children po)]>
          (<[instance w := Object ty (child_dict ty pdir name parent ∅) ∅]>
             (heap (new_object ty w).2))) (new_object ty w).2).
Proof.
  intros Hpo Hpdir Hadd.
  apply (init_resolve_child _ _ _ _ _ (Object ty ∅ ∅) po pdir);
    [by eapply instance_fresh | apply new_object_lookup | | done | done].
  unfold new_object. simpl. rewrite lookup_insert_ne; [done|].
  by eapply instance_fresh.
Qed.

Lemma new_child_directory ty name parent basedir w po pdir :
  heap w !! parent = Some po →
  obj_dict po !! "_m80_basedir" = Some (VStr pdir) →
  ty_add_child (obj_type po) = true →
  directory_of (instance w) (Freezable.new ty name (Some parent) basedir w).2
  = Some (VStr (os_path.join pdir [ty_name ty +:+ "." +:+ name])).
Proof.
  intros Hpo Hpdir Hadd.
  pose proof (instance_fresh _ _ _ Hpo) as Hne.
  erewrite new_after_resolve; [| by apply new_child_resolved ].
  apply (preserves_init_tail (dir_inv (instance w) _));
    [apply stable_dir_inv|].
  unfold dir_inv, directory_of. simpl.
  rewrite lookup_insert_ne by done. rewrite lookup_insert_eq. simpl.
  unfold child_dict. rewrite lookup_insert_ne by done.
  by rewrite lookup_insert_eq.
Qed.

Lemma new_child_registry ty name parent basedir w po pdir :
  heap w !! parent = Some po →
  obj_dict po !! "_m80_basedir" = Some (VStr pdir) →
  ty_add_child (obj_type po) = true →
  children_of parent (Freezable.new ty name (Some parent) basedir w).2
  = Some ({[ instance w ]} ∪ obj_children po).
Proof.
  intros Hpo Hpdir Hadd.
  erewrite new_after_resolve; [| by apply new_child_resolved ].
  apply (preserves_init_tail (children_inv parent _));
    [apply stable_children_inv|].
  unfold children_inv, children_of. simpl. by rewrite lookup_insert_eq.
Qed.

(** C2. A Freezable constructed with a parent, whose directory is
    [pdir] and whose type has the registration method, has the storage
    directory [join(pdir, '{kind}.{name}')], and after the construction
    the child registry of the parent is what it was with the new object
    added: the new object is in it, once. *)
Theorem child_directory_registered ty name parent basedir w po pdir :
  heap w !! parent = Some po →
  obj_dict po !! "_m80_basedir" = Some (VStr pdir) →
  ty_add_child (obj_type po) = true →
  directory_of (instance w) (Freezable.new ty name (Some parent) basedir w).2
  = Some (VStr (os_path.join pdir [ty_name ty +:+ "." +:+ name]))
  ∧ ∃ registry,
      children_of parent (Freezable.new ty name (Some parent) basedir w).2
      = Some registry
      ∧ registry = {[ instance w ]} ∪ obj_children po
      ∧ count_occ Nat.eq_dec (elements registry) (instance w) = 1.
Proof.
  intros Hpo Hpdir Hadd. split; [by eapply new_child_directory|].
  eexists. split; [by eapply new_child_registry|]. split; [done|].
  apply NoDup_count_occ'; [apply NoDup_ListNoDup, NoDup_elements|].
  apply list_elem_of_In, elem_of_elements, elem_of_union. left.
  by apply elem_of_singleton.
Qed.

(** ** Directory creation *)

Lemma resolve_from_is_dir f cur c rest l :
  resolve_from f cur (c :: rest) = Some l → is_dir f cur = true.
Proof. simpl. by destruct (is_dir f cur). Qed.

(** A walk that ends in a directory has nothing to create. *)
Lemma makedirs_walk_existing name f comps cur l :
  resolve_from f cur comps = Some l → is_dir f l = true →
  makedirs_walk name cur comps f = (inr (), f).
Proof.
  revert cur. induction comps as [|c rest IH]; intros cur Hres Hl; [done|].
  simpl in *. destruct (is_dir f cur); [|done]. simpl in Hres.
  destruct (has_nul c); [done|].
  destruct (is_curdir c); [by apply IH|].
  case_bool_decide; [by apply IH|].
  assert (is_dir f (cur ++ [c]) = true) as Hc.
  { destruct rest as [|c' rest']; [by simplify_eq/=|].
    by eapply resolve_from_is_dir. }
  rewrite Hc. by apply IH.
Qed.

Lemma os_makedirs_existing name f :
  isdir f name = true → os_makedirs name true f = (inr (), f).
Proof.
  unfold isdir, locate, os_makedirs. case_bool_decide; [done|]. simpl.
  destruct (resolve_from f [] (os_path.components name)) as [l|] eqn:Hres;
    [|done].
  intros Hl. by eapply makedirs_walk_existing.
Qed.

Lemma set_fs_same (w : world) : set_fs (fs w) w = w.
Proof. by destruct w. Qed.

Lemma init_makedirs_existing self w o d :
  heap w !! self = Some o →
  obj_dict o !! "_m80_basedir" = Some (VStr d) →
  isdir (fs w) d = true →
  Freezable.init_makedirs self w = (inr (), w).
Proof.
  intros Ho Hd Hdir. unfold Freezable.init_makedirs.
  mstep. rewrite bind_unfold. simpl. unfold makedirs.
  by rewrite os_makedirs_existing, set_fs_same.
Qed.

Lemma stable_type_inv r ty : stable (type_inv r ty).
Proof.
  split.
  - intros r' a v' _ w Hw. unfold setattr.
    destruct (heap w !! r') as [o'|] eqn:Ho'; [|done].
    unfold type_inv in *. simpl.
    destruct (decide (r' = r)) as [->|Hr].
    + rewrite lookup_insert_eq. by rewrite Ho' in Hw.
    + by rewrite lookup_insert_ne.
  - intros ty' w Hw. unfold type_inv in *. simpl.
    destruct (heap w !! r) as [o|] eqn:Ho; [|done].
    rewrite lookup_insert_ne; [by rewrite Ho|]. by eapply instance_fresh.
  - intros name e. apply preserves_makedirs. by intros w f c n Hw.
  - by intros w F c n Hw.
Qed.

(** A parent that was ready for a construction is ready for the next. *)
Lemma new_keeps_parent ty name p basedir w po pdir :
  heap w !! p = Some po →
  obj_dict po !! "_m80_basedir" = Some (VStr pdir) →
  ty_add_child (obj_type po) = true →
  ∃ po', heap (Freezable.new ty name (Some p) basedir w).2 !! p = Some po'
    ∧ obj_dict po' !! "_m80_basedir" = Some (VStr pdir)
    ∧ obj_type po' = obj_type po.
Proof.
  intros Hpo Hpdir Hadd.
  erewrite new_after_resolve; [| by apply new_child_resolved ].
  set (w1 := set_heap _ _).
  assert (dir_inv p (VStr pdir) w1 ∧ type_inv p (obj_type po) w1) as [Hd Ht].
  { unfold dir_inv, directory_of, type_inv, w1. simpl.
    by rewrite lookup_insert_eq. }
  apply (preserves_init_tail _ (instance w) (stable_dir_inv _ _)) in Hd.
  apply (preserves_init_tail _ (instance w) (stable_type_inv _ _)) in Ht.
  unfold dir_inv, directory_of, type_inv in *.
  destruct (heap (_ w1).2 !! p) as [po'|]; [|done].
  exists po'. simpl in *. by simplify_eq.
Qed.

Lemma second_makedirs_existing ty name parent basedir w d :
  parent_ready parent w →
  directory_of (instance w) (Freezable.new ty name parent basedir w).2
  = Some (VStr d) →
  isdir (fs (Freezable.new ty name parent basedir w).2) d = true →
  ∃ w2,
    Freezable.init_resolve
      (instance (Freezable.new ty name parent basedir w).2) name parent
      basedir (new_object ty (Freezable.new ty name parent basedir w).2).2
    = (inr (), w2)
    ∧ Freezable.init_makedirs
        (instance (Freezable.new ty name parent basedir w).2) w2
      = (inr (), w2).
Proof.
  intros Hparent Hd Hdir. set (w1 := (Freezable.new _ _ _ _ w).2) in *.
  destruct parent as [p|].
  - destruct Hparent as (po & pdir & Hpo & Hpdir & Hadd).
    pose proof (new_child_directory ty name p basedir w po pdir
                  Hpo Hpdir Hadd) as Hd'.
    fold w1 in Hd'. rewrite Hd in Hd'. injection Hd' as ->.
    destruct (new_keeps_parent ty name p basedir w po pdir)
      as (po' & Hpo' & Hpdir' & Hty); [done..|]. fold w1 in Hpo'.
    eexists. split.
    + apply (new_child_resolved _ _ _ _ _ po' pdir); [done..|].
      by rewrite Hty.
    + eapply init_makedirs_existing; [| |done].
      * simpl. rewrite lookup_insert_ne; [apply lookup_insert_eq|].
        intros Heq. by eapply (instance_fresh w1 p).
      * simpl. unfold child_dict. rewrite lookup_insert_ne by done.
        by rewrite lookup_insert_eq.
  - unfold w1 in Hd. rewrite new_root_directory in Hd. injection Hd as <-.
    eexists. split.
    + apply init_resolve_root, new_object_lookup.
    + eapply init_makedirs_existing; [..|done].
      * simpl. apply lookup_insert_eq.
      * simpl. unfold root_dict. rewrite lookup_insert_ne by done.
        rewrite lookup_insert_eq. unfold w1.
        by rewrite new_keeps_cf_basedir.
Qed.

(** C6. Directory creation at construction is idempotent: when a
    Freezable has been constructed and its directory exists on disk,
    the construction of a second one with the same type, name and
    parent resolves its directory, and its directory-creation step
    returns without raising and leaves the world as it is. *)
Theorem second_construction_makedirs ty name parent basedir w d :
  parent_ready parent w →
  directory_of (instance w) (Freezable.new ty name parent basedir w).2
  = Some (VStr d) →
  isdir (fs (Freezable.new ty name parent basedir w).2) d = true →
  ∃ w2,
    Freezable.init_resolve
      (instance (Freezable.new ty name parent basedir w).2) name parent
      basedir (new_object ty (Freezable.new ty name parent basedir w).2).2
    = (inr (), w2)
    ∧ Freezable.init_makedirs
        (instance (Freezable.new ty name parent basedir w).2) w2
      = (inr (), w2).
Proof. apply second_makedirs_existing. Qed.

(** ** The relational store *)

Lemma lite_Connection_inv filename w v w' :
  lite_Connection filename w = (inr v, w') →
  ∃ c, v = VConn c ∧ heap w' = heap w.
Proof.
  unfold lite_Connection. repeat case_match; try done.
  intros [= <- <-]. by eexists.
Qed.

(** What the constructor leaves in the dictionary of the store: the
    file name and the connection, under [filename] and [db]. *)
Lemma rdb_new_inv basedir w self w1 :
  relational_db.new basedir w = (inr self, w1) →
  ∃ filename c,
    heap w1 !! self
    = Some (Object relational_db.type
              (<["db" := VConn c]> (<["filename" := VStr filename]> ∅)) ∅).
Proof.
  unfold relational_db.new. rewrite bind_unfold.
  change (new_object relational_db.type w) with
    (inr (instance w) : exn + ref, (new_object relational_db.type w).2).
  cbv beta iota. rewrite bind_unfold.
  destruct (relational_db.__init__ _ _ _) as [[e|[]] w2] eqn:Hinit; [done|].
  intros [= <- <-]. revert Hinit. unfold relational_db.__init__.
  pose proof (new_object_lookup relational_db.type w) as Hself.
  destruct basedir; try done. do 4 mstep. mstep. rewrite bind_unfold.
  destruct (lite_Connection _ _) as [[e|v] w3] eqn:Hconn; [done|].
  apply lite_Connection_inv in Hconn as (c & -> & Hheap).
  erewrite setattr_eq; [|rewrite Hheap; heap_lookup].
  intros [= <-]. eexists _, c.
  simpl. rewrite Hheap. simpl. rewrite insert_insert_eq. apply lookup_insert_eq.
Qed.

Lemma getattr_missing r a w o :
  heap w !! r = Some o → obj_dict o !! a = None →
  ty_property (obj_type o) a = None →
  getattr r a w = (inl (AttributeError (ty_name (obj_type o)) a), w).
Proof. intros Ho Ha Hp. unfold getattr. by rewrite Ho, Ha, Hp. Qed.

(** C9. On a relational store that its constructor has produced, which
    holds the connection under [db] and nothing under [_db], every call
    of [bulk_transaction] and every call of [query], in whatever world
    the store is still as the constructor left it, raises the
    attribute-lookup error for [_db] and leaves the world as it was: no
    statement has reached the engine. *)
Theorem store_methods_fail_on_db_lookup basedir w self w1 :
  relational_db.new basedir w = (inr self, w1) →
  (∃ o c, heap w1 !! self = Some o
      ∧ obj_dict o !! "db" = Some (VConn c)
      ∧ obj_dict o !! "_db" = None)
  ∧ ∀ w', heap w' !! self = heap w1 !! self →
      (∀ (A : Type) (body : value → M A),
         relational_db.bulk_transaction self body w'
         = (inl (AttributeError "relational_db" "_db"), w'))
      ∧ (∀ q,
           relational_db.query self q w'
           = (inl (AttributeError "relational_db" "_db"), w')).
Proof.
  intros Hnew. apply rdb_new_inv in Hnew as (filename & c & Hself).
  split.
  { eexists _, c. split; [done|]. simpl. rewrite lookup_insert_eq.
    split; [done|]. rewrite !lookup_insert_ne by done. apply lookup_empty. }
  intros w' Hsame. rewrite Hself in Hsame.
  assert (getattr self "_db" w'
          = (inl (AttributeError "relational_db" "_db"), w')) as Hget.
  { rewrite (getattr_missing _ _ _ _ Hsame); [done| |done].
    simpl. rewrite !lookup_insert_ne by done. apply lookup_empty. }
  split.
  - intros A body. unfold relational_db.bulk_transaction.
    by rewrite bind_unfold, Hget.
  - intros q. unfold relational_db.query. by rewrite bind_unfold, Hget.
Qed.

(** After a walk that succeeded, the path leads to a directory. *)
Lemma is_dir_mono f f' l :
  fs_dirs f ⊆ fs_dirs f' → is_dir f l = true → is_dir f' l = true.
Proof.
  intros Hsub Hl. unfold is_dir in *. apply bool_decide_eq_true.
  apply bool_decide_eq_true in Hl as [->|Hin]; [by left|right; by apply Hsub].
Qed.

Lemma resolve_from_mono f f' cur comps l :
  fs_dirs f ⊆ fs_dirs f' →
  resolve_from f cur comps = Some l → resolve_from f' cur comps = Some l.
Proof.
  intros Hsub. revert cur. induction comps as [|c rest IH]; intros cur; [done|].
  simpl. destruct (is_dir f cur) eqn:Hcur; [|done].
  rewrite (is_dir_mono f f' cur Hsub Hcur). simpl.
  destruct (has_nul c); [done|]. repeat case_match; apply IH.
Qed.

Lemma isdir_mono f f' d :
  fs_dirs f ⊆ fs_dirs f' → isdir f d = true → isdir f' d = true.
Proof.
  intros Hsub. unfold isdir, locate. case_bool_decide; [done|].
  destruct (resolve_from f [] _) as [l|] eqn:Hres; [|done].
  rewrite (resolve_from_mono f f' _ _ l Hsub Hres). by apply is_dir_mono.
Qed.

Lemma makedirs_walk_creates name f f1 comps cur :
  makedirs_walk name cur comps f = (inr (), f1) →
  (∀ k, is_dir f (take k cur) = true) →
  ∃ l, resolve_from f1 cur comps = Some l ∧ is_dir f1 l = true.
Proof.
  revert cur f. induction comps as [|c rest IH]; intros cur f Hwalk Hpre.
  { simpl in *. simplify_eq. exists cur. split; [done|].
    specialize (Hpre (List.length cur)). by rewrite firstn_all in Hpre. }
  assert (is_dir f1 cur = true) as Hcur1.
  { pose proof (makedirs_walk_grows name cur (c :: rest) f) as [Hd _].
    rewrite Hwalk in Hd. apply (is_dir_mono f); [done|].
    specialize (Hpre (List.length cur)). by rewrite firstn_all in Hpre. }
  simpl in *. rewrite Hcur1. simpl.
  destruct (has_nul c); [done|].
  destruct (is_curdir c); [by eapply IH|].
  case_bool_decide.
  { eapply IH; [done|]. intros k. rewrite removelast_firstn_len.
    rewrite take_take. apply Hpre. }
  assert (∀ f', fs_dirs f ⊆ fs_dirs f' → is_dir f' (cur ++ [c]) = true →
               ∀ k, is_dir f' (take k (cur ++ [c])) = true) as Hnext.
  { intros f' Hsub Hl k. destruct (decide (k ≤ List.length cur)%nat) as [Hk|Hk].
    - rewrite take_app_le by done. by apply (is_dir_mono f).
    - rewrite take_ge; [done|]. rewrite length_app. simpl. lia. }
  destruct (is_dir f (cur ++ [c])) eqn:Hd; [by eapply IH; eauto|].
  destruct (is_file f (cur ++ [c])); [done|].
  eapply IH; [done|]. apply Hnext.
  - apply union_subseteq_r.
  - unfold is_dir, add_dir. simpl. apply bool_decide_eq_true. right.
    apply elem_of_union. left. by apply elem_of_singleton.
Qed.

Lemma os_makedirs_creates name f f1 :
  os_makedirs name true f = (inr (), f1) → isdir f1 name = true.
Proof.
  unfold os_makedirs, isdir, locate. case_bool_decide; [done|]. simpl.
  intros Hwalk. apply makedirs_walk_creates in Hwalk as (l & -> & Hl);
    [done|]. intros k. by rewrite take_nil.
Qed.

Lemma stable_disk_inv d : stable (disk_inv d).
Proof.
  split.
  - intros r a v _. apply preserves_setattr_blind. by intros w h Hw.
  - intros ty. apply preserves_new_object_blind. by intros w h Hw.
  - intros name e w Hw. unfold makedirs, disk_inv in *.
    pose proof (os_makedirs_grows name e (fs w)) as [Hd _].
    destruct (os_makedirs name e (fs w)) as [r f]. simpl in *.
    by eapply isdir_mono.
  - intros w F c n Hw. unfold disk_inv in *. simpl.
    by eapply isdir_mono; [|done].
Qed.

Lemma init_makedirs_eq self w o d :
  heap w !! self = Some o →
  obj_dict o !! "_m80_basedir" = Some (VStr d) →
  Freezable.init_makedirs self w = makedirs d true w.
Proof.
  intros Ho Hd. unfold Freezable.init_makedirs. mstep.
  by rewrite bind_unfold, as_str_eq.
Qed.

(** The constructor after a resolution that returned. *)
Lemma new_resolved ty name parent basedir w w1 :
  Freezable.init_resolve (instance w) name parent basedir (new_object ty w).2
  = (inr (), w1) →
  Freezable.new ty name parent basedir w
  = match Freezable.init_makedirs (instance w) w1 with
    | (inr _, w2) =>
        match Freezable.init_stores (instance w) w2 with
        | (inr _, w3) => (inr (instance w), w3)
        | (inl e, w3) => (inl e, w3)
        end
    | (inl e, w2) => (inl e, w2)
    end.
Proof.
  intros Hres. unfold Freezable.new, Freezable.__init__.
  rewrite bind_unfold. change (new_object ty w) with
    (inr (instance w) : exn + ref, (new_object ty w).2).
  cbv beta iota. rewrite !bind_unfold, Hres. cbv beta iota.
  rewrite ?bind_unfold.
  destruct (Freezable.init_makedirs (instance w) w1) as [[e|[]] w2]; [done|].
  by destruct (Freezable.init_stores (instance w) w2) as [[e|[]] w3].
Qed.

(** The resolution of a construction with a usable parent returns, and
    leaves the directory in the dictionary of the new object. *)
Lemma new_resolves ty name parent basedir w :
  parent_ready parent w →
  ∃ w1 o d,
    Freezable.init_resolve (instance w) name parent basedir
      (new_object ty w).2 = (inr (), w1)
    ∧ heap w1 !! instance w = Some o
    ∧ obj_dict o !! "_m80_basedir" = Some (VStr d).
Proof.
  intros Hparent. destruct parent as [p|].
  - destruct Hparent as (po & pdir & Hpo & Hpdir & Hadd).
    eexists _, _, _. split; [by apply (new_child_resolved _ _ _ _ _ po pdir)|].
    simpl. rewrite lookup_insert_ne
      by (intros Heq; by eapply (instance_fresh w p)).
    rewrite lookup_insert_eq. split; [done|]. simpl. unfold child_dict.
    rewrite lookup_insert_ne by done. by rewrite lookup_insert_eq.
  - eexists _, _, _. split; [apply init_resolve_root, new_object_lookup|].
    simpl. rewrite lookup_insert_eq. split; [done|]. simpl. unfold root_dict.
    rewrite lookup_insert_ne by done. by rewrite lookup_insert_eq.
Qed.

(** A construction that returns an object has left the directory of
    the object on disk. *)
Lemma constructed_directory_exists ty name parent basedir w self w' :
  parent_ready parent w →
  Freezable.new ty name parent basedir w = (inr self, w') →
  ∃ d, directory_of self w' = Some (VStr d) ∧ isdir (fs w') d = true.
Proof.
  intros Hparent Hnew.
  destruct (new_resolves ty name parent basedir w Hparent)
    as (w1 & o & d & Hres & Ho & Hd).
  rewrite (new_resolved _ _ _ _ _ _ Hres) in Hnew.
  rewrite (init_makedirs_eq _ _ _ _ Ho Hd) in Hnew.
  assert (dir_inv (instance w) (VStr d) w1) as Hdir.
  { unfold dir_inv, directory_of. by rewrite Ho. }
  apply (stable_makedirs _ (stable_dir_inv _ _) d true) in Hdir.
  unfold makedirs in *.
  destruct (os_makedirs d true (fs w1)) as [[e|[]] f2] eqn:Hmk; [done|].
  apply os_makedirs_creates in Hmk. simpl in Hdir.
  assert (disk_inv d (set_fs f2 w1)) as Hdisk by done.
  apply (preserves_init_stores _ (instance w) (stable_dir_inv _ _)) in Hdir.
  apply (preserves_init_stores _ (instance w) (stable_disk_inv _)) in Hdisk.
  destruct (Freezable.init_stores (instance w) (set_fs f2 w1))
    as [[e|[]] w3]; [done|].
  injection Hnew as <- <-. by exists d.
Qed.

(** So after a construction that returned an object, the directory
    creation of a second construction with the same inputs returns. *)
Lemma second_construction_after_first ty name parent basedir w self w1 :
  parent_ready parent w →
  Freezable.new ty name parent basedir w = (inr self, w1) →
  ∃ w2,
    Freezable.init_resolve (instance w1) name parent basedir
      (new_object ty w1).2 = (inr (), w2)
    ∧ Freezable.init_makedirs (instance w1) w2 = (inr (), w2).
Proof.
  intros Hparent Hnew.
  destruct (constructed_directory_exists _ _ _ _ _ _ _ Hparent Hnew)
    as (d & Hd & Hdisk).
  pose proof (new_returns_instance _ _ _ _ _ _ _ Hnew) as ->.
  pose proof (second_makedirs_existing ty name parent basedir w d Hparent)
    as Hsecond.
  rewrite Hnew in Hsecond. by apply Hsecond.
Qed.

(** ** The exceptions of a construction *)

Lemma raises_only_bind {A B : Type} (P : exn → Prop) (m : M A) (f : A → M B) :
  raises_only P m → (∀ a, raises_only P (f a)) → raises_only P (m ≫= f).
Proof.
  intros Hm Hf w e w'. rewrite bind_unfold.
  destruct (m w) as [[e1|a] w1] eqn:Hmw.
  - intros [= <- <-]. by eapply Hm.
  - apply Hf.
Qed.

Lemma raises_only_ret {A : Type} (P : exn → Prop) (a : A) :
  raises_only P (mret a).
Proof. by intros w e w'. Qed.

Lemma raises_only_gets {A : Type} (P : exn → Prop) (f : world → A) :
  raises_only P (gets f).
Proof. by intros w e w'. Qed.

Lemma raises_only_raise {A : Type} (P : exn → Prop) (e : exn) :
  P e → raises_only P (raise e : M A).
Proof. intros He w e' w' [= <- <-]. done. Qed.

Lemma builtin_getattr r a : raises_only builtin (getattr r a).
Proof.
  intros w e w'. unfold getattr. repeat case_match; try done.
  all: by intros [= <- <-].
Qed.

Lemma builtin_setattr r a v : raises_only builtin (setattr r a v).
Proof.
  intros w e w'. unfold setattr. case_match; [done|]. by intros [= <- <-].
Qed.

Lemma builtin_new_object ty : raises_only builtin (new_object ty).
Proof. by intros w e w'. Qed.

Lemma builtin_guess_type r : raises_only builtin (guess_type r).
Proof.
  intros w e w'. unfold guess_type. case_match; [done|]. by intros [= <- <-].
Qed.

Lemma builtin_as_str v : raises_only builtin (as_str v).
Proof. intros w e w'. destruct v; try done. all: by intros [= <- <-]. Qed.

Lemma builtin_add_child p c : raises_only builtin (_m80_add_child p c).
Proof.
  intros w e w'. unfold _m80_add_child. repeat case_match; try done.
  all: by intros [= <- <-].
Qed.

Lemma builtin_makedirs_walk name cur comps f e f' :
  makedirs_walk name cur comps f = (inl e, f') → builtin e.
Proof.
  revert cur f. induction comps as [|c rest IH]; intros cur f; simpl; [done|].
  destruct (has_nul c); [by intros [= <- <-]|].
  destruct (is_curdir c); [apply IH|].
  case_bool_decide; [apply IH|].
  destruct (is_dir f (cur ++ [c])%list); [apply IH|].
  destruct (is_file f (cur ++ [c])%list); [|apply IH].
  intros [= <- <-]. by destruct rest.
Qed.

Lemma builtin_makedirs name e : raises_only builtin (makedirs name e).
Proof.
  intros w e' w'. unfold makedirs.
  destruct (os_makedirs name e (fs w)) as [r f] eqn:Hmk.
  intros [= -> <-]. revert Hmk. unfold os_makedirs.
  case_bool_decide; [by intros [= <- <-]|].
  destruct (negb e && isdir (fs w) name); [by intros [= <- <-]|].
  apply builtin_makedirs_walk.
Qed.

Lemma builtin_lite_Connection filename :
  raises_only builtin (lite_Connection filename).
Proof.
  intros w e w'. unfold lite_Connection. repeat case_match; try done.
  all: by intros [= <- <-].
Qed.

Ltac only_builtin :=
  repeat first
    [ apply raises_only_bind; [| intros ?]
    | apply raises_only_ret | apply raises_only_gets
    | apply raises_only_raise; [done]
    | apply builtin_getattr | apply builtin_setattr | apply builtin_new_object
    | apply builtin_guess_type | apply builtin_as_str | apply builtin_add_child
    | apply builtin_makedirs | apply builtin_lite_Connection
    | case_match ].

(** A construction raises the exceptions of the interpreter and of the
    libraries, and no other. *)
Lemma builtin_new ty name parent basedir :
  raises_only builtin (Freezable.new ty name parent basedir).
Proof.
  unfold Freezable.new, Freezable.__init__, Freezable.init_resolve,
    Freezable.init_makedirs, Freezable.init_stores, relational_db.new,
    relational_db.__init__, sqlite_dict.
  only_builtin.
Qed.

(** C7, as the code has it.  No name is refused: for every name, with
    or without a path separator or a null byte in it, directory
    resolution without a parent returns and gives the directory
    [join(baseDir, 'databases', '{kind}.{name}')] with the name as it
    is, and a construction, with or without a parent, never raises
    [InvalidNameError]. *)
Theorem name_not_validated ty name parent basedir w :
  (Freezable.init_resolve (instance w) name None basedir
     (new_object ty w).2).1 = inr ()
  ∧ directory_of (instance w) (Freezable.new ty name None basedir w).2
    = Some (VStr (os_path.join (default (cf_basedir w) basedir)
                    ["databases"; ty_name ty +:+ "." +:+ name]))
  ∧ ∀ msg, (Freezable.new ty name parent basedir w).1
           ≠ inl (UserError "InvalidNameError" msg).
Proof.
  split; [|split].
  - by erewrite init_resolve_root by apply new_object_lookup.
  - apply new_root_directory.
  - intros msg Hraise.
    destruct (Freezable.new ty name parent basedir w) as [r w'] eqn:Hnew.
    simpl in Hraise. subst r. by apply builtin_new in Hnew.
Qed.

(** ** Temporary files *)








(** ** The scope on a store whose [_db] is found

    The lookup of [_db] fails on every store that the constructor has
    produced.  What follows is the rest of the two methods: what they
    do on an object whose [_db] is a connection. *)

Lemma execute_eq c q w cn r cn' :
  conns w !! c = Some cn → sqlite_step q cn = (r, cn') →
  cursor_execute (VCursor c) q w = (r, set_conns (<[c := cn']> (conns w)) w).
Proof. intros Hc Hstep. unfold cursor_execute. by rewrite Hc, Hstep. Qed.










(** The pragmas of the entry are still set when the scope is left. *)
Lemma closed_pragmas d sp qs cn :
  c_synchronous (closed d sp qs cn) = c_synchronous cn
  ∧ c_journal_mode (closed d sp qs cn) = c_journal_mode cn.
Proof. done. Qed.

(** A statement that the engine takes as a statement on the contents
    leaves the pragmas and the savepoints as they are. *)
Lemma data_statement_keeps q cn :
  strip_prefix "PRAGMA synchronous = " q = None →
  strip_prefix "PRAGMA journal_mode = " q = None →
  strip_prefix "ROLLBACK TO SAVEPOINT " q = None →
  strip_prefix "RELEASE SAVEPOINT " q = None →
  strip_prefix "SAVEPOINT " q = None →
  c_savepoints (sqlite_step q cn).2 = c_savepoints cn
  ∧ c_synchronous (sqlite_step q cn).2 = c_synchronous cn
  ∧ c_journal_mode (sqlite_step q cn).2 = c_journal_mode cn.
Proof.
  intros H1 H2 H3 H4 H5. unfold sqlite_step. rewrite H1, H2, H3, H4, H5.
  by destruct (sql q _) as [e|[d rs]].
Qed.

(** [query] on a result with at least one row, each row with one value
    per column: the table has the names of the description, in order,
    and the rows of the engine, in order. *)
Lemma query_table self o c cn q w rs cn' :
  heap w !! self = Some o → obj_dict o !! "_db" = Some (VConn c) →
  conns w !! c = Some cn →
  sqlite_step q cn = (inr rs, cn') →
  rs_rows rs ≠ [] →
  Forall (λ r, length r = length (rs_description rs)) (rs_rows rs) →
  relational_db.query self q w
  = (inr (DataFrame (fst <$> rs_description rs) (rs_rows rs)),
     set_conns (<[c := cn']> (conns w)) w).
Proof.
  intros Ho Hdb Hc Hstep Hrows Hlen. unfold relational_db.query.
  mstep. rewrite bind_unfold. simpl conn_cursor. rewrite ret_unfold.
  cbv beta iota. rewrite bind_unfold.
  erewrite execute_eq by done. cbv beta iota.
  rewrite bind_unfold. unfold cursor_description.
  destruct (rs_rows rs) as [|r rows] eqn:Hr; [done|].
  rewrite ret_unfold. cbv beta iota. rewrite bind_unfold.
  unfold cursor_fetchall. rewrite ret_unfold, Hr. cbv beta iota.
  rewrite bind_unfold. unfold pd_DataFrame.
  assert (forallb
            (λ r0, bool_decide (length r0 = length (fst <$> rs_description rs)))
            (r :: rows) = true) as ->.
  { apply forallb_forall. intros x Hx. apply bool_decide_eq_true.
    rewrite length_fmap. rewrite Forall_forall in Hlen.
    by apply Hlen, list_elem_of_In. }
  by rewrite !ret_unfold.
Qed.

(** Without a row the engine has no description for the cursor, and
    [query] raises. *)
Lemma query_no_row self o c cn q w rs cn' :
  heap w !! self = Some o → obj_dict o !! "_db" = Some (VConn c) →
  conns w !! c = Some cn →
  sqlite_step q cn = (inr rs, cn') →
  rs_rows rs = [] →
  relational_db.query self q w
  = (inl (SQLError "ExecutionCompleteError"),
     set_conns (<[c := cn']> (conns w)) w).
Proof.
  intros Ho Hdb Hc Hstep Hrows. unfold relational_db.query.
  mstep. rewrite bind_unfold. simpl conn_cursor. rewrite ret_unfold.
  cbv beta iota. rewrite bind_unfold.
  erewrite execute_eq by done. cbv beta iota.
  rewrite bind_unfold. unfold cursor_description. by rewrite Hrows.
Qed.

(** ** Batches in a scope *)












(** ** Scopes in scopes, and a savepoint that the body closes *)







(** ** [query] and the constructor of the store *)

(** X8. [query] on a store whose [_db] is a connection, for a statement
    to which the engine answers with at least one row and one value per
    column in each: the table has the names of the description as its
    columns, as many and in that order, and the rows of the engine, as
    many and in that order, each with one value per column. *)
Theorem query_columns_and_rows self o c cn q w rs cn' :
  heap w !! self = Some o → obj_dict o !! "_db" = Some (VConn c) →
  conns w !! c = Some cn →
  sqlite_step q cn = (inr rs, cn') →
  rs_rows rs ≠ [] →
  Forall (λ r, length r = length (rs_description rs)) (rs_rows rs) →
  ∃ df,
    (relational_db.query self q w).1 = inr df
    ∧ df_columns df = fst <$> rs_description rs
    ∧ length (df_columns df) = length (rs_description rs)
    ∧ df_rows df = rs_rows rs
    ∧ Forall (λ r, length r = length (df_columns df)) (df_rows df).
Proof.
  intros Ho Hdb Hc Hstep Hrows Hlen.
  rewrite (query_table _ _ _ _ _ _ _ _ Ho Hdb Hc Hstep Hrows Hlen).
  eexists. split; [done|]. simpl. rewrite length_fmap. done.
Qed.

(** X9. [query] runs its statement outside any scope and does not
    undo it: whatever the outcome of the call, the world after it is
    the world after the statement, and an error of the engine reaches
    the caller as it is. *)
Theorem query_keeps_statement_effect self o c cn q w :
  heap w !! self = Some o → obj_dict o !! "_db" = Some (VConn c) →
  conns w !! c = Some cn →
  (relational_db.query self q w).2
  = set_conns (<[c := (sqlite_step q cn).2]> (conns w)) w
  ∧ ∀ e, (sqlite_step q cn).1 = inl e →
      (relational_db.query self q w).1 = inl e.
Proof.
  intros Ho Hdb Hc. unfold relational_db.query.
  mstep. rewrite bind_unfold. simpl conn_cursor. rewrite ret_unfold.
  cbv beta iota. rewrite bind_unfold.
  destruct (sqlite_step q cn) as [[e|rs] cn'] eqn:Hstep;
    erewrite execute_eq by done; cbv beta iota.
  { split; [done|]. by intros e' [= <-]. }
  split; [|done]. simpl.
  rewrite bind_unfold. unfold cursor_description.
  destruct (rs_rows rs) as [|r rows]; [done|].
  rewrite ret_unfold. cbv beta iota. rewrite bind_unfold.
  unfold cursor_fetchall. rewrite ret_unfold. cbv beta iota.
  rewrite bind_unfold. unfold pd_DataFrame.
  by destruct (forallb _ _).
Qed.

Lemma lite_Connection_cases filename w :
  (∃ e, lite_Connection filename w = (inl e, w))
  ∨ ∃ l, lite_Connection filename w
         = (inr (VConn (fresh (dom (conns w)))),
            set_conns
              (<[fresh (dom (conns w)) :=
                   Connection filename "full" "delete" ∅ [] []]> (conns w))
              (set_fs (add_file l (fs w)) w)).
Proof.
  unfold lite_Connection. repeat case_match; eauto.
Qed.

(** The constructor of the store, step by step. *)
Lemma rdb_new_cases basedir w :
  (∃ e w', relational_db.new basedir w = (inl e, w')
     ∧ fs w' = fs w ∧ conns w' = conns w
     ∧ ∀ r, r ≠ instance w → heap w' !! r = heap w !! r)
  ∨ ∃ b l,
      basedir = VStr b
      ∧ relational_db.new basedir w
        = (inr (instance w),
           set_heap
             (<[instance w :=
                  Object relational_db.type
                    (<["db" := VConn (fresh (dom (conns w)))]>
                       (<["filename" :=
                            VStr (os_path.expanduser (home w)
                                    (os_path.join b ["db.sqlite"]))]> ∅)) ∅]>
                (heap w))
             (set_conns
                (<[fresh (dom (conns w)) :=
                     Connection
                       (os_path.expanduser (home w)
                          (os_path.join b ["db.sqlite"]))
                       "full" "delete" ∅ [] []]> (conns w))
                (set_fs (add_file l (fs w)) w))).
Proof.
  unfold relational_db.new. rewrite bind_unfold.
  change (new_object relational_db.type w) with
    (inr (instance w) : exn + ref, (new_object relational_db.type w).2).
  cbv beta iota. rewrite bind_unfold. unfold relational_db.__init__.
  pose proof (new_object_lookup relational_db.type w) as Hself.
  assert (∀ r, r ≠ instance w →
            heap (new_object relational_db.type w).2 !! r = heap w !! r)
    as Hother.
  { intros r Hr. simpl. by rewrite lookup_insert_ne. }
  destruct basedir as [| | |b| | | |];
    try (left; eexists _, _; split; [reflexivity|]; by simpl).
  do 4 mstep. mstep. rewrite bind_unfold.
  set (filename := os_path.expanduser _ _).
  match goal with |- context [lite_Connection filename ?w1] =>
    destruct (lite_Connection_cases filename w1) as [[e He]|[l Hl]] end.
  - left. rewrite He. eexists _, _. split; [reflexivity|]. simpl.
    split; [done|]. split; [done|]. intros r Hr.
    by rewrite !lookup_insert_ne.
  - right. exists b, l. split; [done|]. rewrite Hl. cbv beta iota.
    erewrite setattr_eq by heap_lookup. rewrite ret_unfold. simpl.
    unfold set_heap, set_conns, set_fs. simpl.
    by rewrite !insert_insert_eq.
Qed.

(** X1. A store that its constructor has returned: its [filename] is
    [expanduser(join(basedir, 'db.sqlite'))], its [db] is a connection
    that was not open before, on that file, with no savepoint and no
    statement run, and [cursor] gives a cursor on that connection and
    changes nothing. *)
Theorem constructed_store_cursor basedir w self w1 :
  relational_db.new basedir w = (inr self, w1) →
  ∃ b c cn,
    basedir = VStr b
    ∧ getattr self "filename" w1
      = (inr (VStr (os_path.expanduser (home w)
                      (os_path.join b ["db.sqlite"]))), w1)
    ∧ getattr self "db" w1 = (inr (VConn c), w1)
    ∧ relational_db.cursor self w1 = (inr (VCursor c), w1)
    ∧ conns w !! c = None
    ∧ conns w1 !! c = Some cn
    ∧ c_filename cn
      = os_path.expanduser (home w) (os_path.join b ["db.sqlite"])
    ∧ c_savepoints cn = []
    ∧ c_executed cn = [].
Proof.
  intros Hnew.
  destruct (rdb_new_cases basedir w)
    as [(e & w' & Heq & _)|(b & l & -> & Heq)]; [congruence|].
  rewrite Heq in Hnew. injection Hnew as <- <-.
  eexists b, _, _.
  split; [done|].
  match goal with |- context [getattr _ "db" ?W] =>
    assert (getattr (instance w) "db" W
            = (inr (VConn (fresh (dom (conns w)))), W)) as Hdb end.
  { eapply getattr_dict; [simpl; apply lookup_insert_eq|].
    simpl. apply lookup_insert_eq. }
  split; [|split; [exact Hdb|split; [|split; [|split]]]].
  - eapply getattr_dict; [simpl; apply lookup_insert_eq|].
    simpl. rewrite lookup_insert_ne by done. apply lookup_insert_eq.
  - unfold relational_db.cursor. by rewrite bind_unfold, Hdb.
  - apply (not_elem_of_dom (conns w)), is_fresh.
  - simpl. apply lookup_insert_eq.
  - done.
Qed.

(** X2. The constructor of the store creates no directory, and leaves
    every connection that was open and every object that existed as it
    was; when it raises, no connection has been opened and no file
    created. *)
Theorem store_constructor_frame basedir w :
  fs_dirs (fs (relational_db.new basedir w).2) = fs_dirs (fs w)
  ∧ (∀ c cn, conns w !! c = Some cn →
       conns (relational_db.new basedir w).2 !! c = Some cn)
  ∧ (∀ r o, heap w !! r = Some o →
       heap (relational_db.new basedir w).2 !! r = Some o)
  ∧ (∀ e, (relational_db.new basedir w).1 = inl e →
       conns (relational_db.new basedir w).2 = conns w
       ∧ fs (relational_db.new basedir w).2 = fs w).
Proof.
  destruct (rdb_new_cases basedir w)
    as [(e & w' & -> & Hfs & Hconns & Hheap)|(b & l & -> & ->)]; simpl.
  - rewrite Hfs, Hconns. split; [done|]. split; [done|]. split; [|done].
    intros r o Hr. rewrite Hheap; [done|]. by eapply not_eq_sym, instance_fresh.
  - split; [done|]. split; [|split; [|done]].
    + intros c cn Hc. rewrite lookup_insert_ne; [done|].
      intros <-. apply (elem_of_dom_2 (conns w)) in Hc.
      by apply (is_fresh (dom (conns w))).
    + intros r o Hr. rewrite lookup_insert_ne; [done|].
      by eapply instance_fresh.
Qed.


(** ** Members that the constructor does not find *)

Lemma preserves_setattr_lacks r ty a r' a' v :
  a' ≠ a → preserves (lacks_inv r ty a) (setattr r' a' v).
Proof.
  intros Ha w (o & Ho & Hty & Hlack). unfold setattr.
  destruct (heap w !! r') as [o'|] eqn:Ho'; [|by exists o].
  unfold lacks_inv. simpl. destruct (decide (r' = r)) as [->|Hr].
  - rewrite Ho in Ho'. injection Ho' as <-.
    eexists. split; [apply lookup_insert_eq|]. cbn [obj_type obj_dict].
    split; [done|]. by rewrite lookup_insert_ne.
  - exists o. by rewrite lookup_insert_ne.
Qed.

Lemma preserves_add_child_lacks r ty a p c :
  preserves (lacks_inv r ty a) (_m80_add_child p c).
Proof.
  intros w (o & Ho & Hty & Hlack). unfold _m80_add_child.
  destruct (heap w !! p) as [po|] eqn:Hpo; [|by exists o].
  destruct (ty_add_child (obj_type po)); [|by exists o].
  unfold lacks_inv. simpl. destruct (decide (p = r)) as [->|Hr].
  - rewrite Ho in Hpo. injection Hpo as <-.
    eexists. split; [apply lookup_insert_eq|]. done.
  - exists o. by rewrite lookup_insert_ne.
Qed.

Lemma preserves_new_object_lacks r ty a ty' :
  preserves (lacks_inv r ty a) (new_object ty').
Proof.
  intros w (o & Ho & Hty & Hlack). exists o. simpl.
  rewrite lookup_insert_ne; [done|]. by apply (instance_fresh w r o).
Qed.

Lemma fs_blind_lacks r ty a : fs_blind (lacks_inv r ty a).
Proof. by intros w f c n Hw. Qed.

Lemma files_blind_lacks r ty a : files_blind (lacks_inv r ty a).
Proof. by intros w F c n Hw. Qed.

Ltac frame_lacks :=
  repeat first
    [ apply preserves_bind; [| intros ?]
    | apply preserves_ret | apply preserves_raise | apply preserves_gets
    | apply preserves_getattr | apply preserves_guess_type
    | apply preserves_as_str | apply preserves_sqlite_dict
    | apply preserves_lite_Connection; [apply files_blind_lacks]
    | apply preserves_makedirs; [apply fs_blind_lacks]
    | apply preserves_new_object_lacks
    | apply preserves_setattr_lacks; [done]
    | apply preserves_add_child_lacks
    | case_match ].

Lemma lacks_basedir_to_stores r ty self name parent basedir :
  preserves (lacks_inv r ty "basedir")
    (Freezable.init_resolve self name parent basedir;;
     Freezable.init_makedirs self).
Proof.
  unfold Freezable.init_resolve, Freezable.init_makedirs. frame_lacks.
Qed.

Lemma lacks__basedir_init r ty self name parent basedir :
  preserves (lacks_inv r ty "_basedir")
    (Freezable.__init__ self name parent basedir).
Proof.
  unfold Freezable.__init__, Freezable.init_resolve, Freezable.init_makedirs,
    Freezable.init_stores, relational_db.new, relational_db.__init__.
  frame_lacks.
Qed.

Lemma bind_assoc {A B C : Type} (m : M A) (f : A → M B) (g : B → M C) w :
  (m ≫= (λ a, f a ≫= g)) w = ((m ≫= f) ≫= g) w.
Proof.
  rewrite !bind_unfold. by destruct (m w) as [[e|a] w1].
Qed.

Lemma init_stores_needs_basedir ty self w :
  lacks_inv self ty "basedir" w → ty_property ty "basedir" = None →
  Freezable.init_stores self w
  = (inl (AttributeError (ty_name ty) "basedir"), w).
Proof.
  intros (o & Ho & <- & Hlack) Hprop. unfold Freezable.init_stores.
  rewrite bind_unfold. by erewrite getattr_missing.
Qed.

Lemma new_root_without_basedir ty name basedir w f' :
  ty_property ty "basedir" = None →
  os_makedirs
    (os_path.join (default (cf_basedir w) basedir)
       ["databases"; ty_name ty +:+ "." +:+ name]) true (fs w)
  = (inr (), f') →
  Freezable.new ty name None basedir w
  = (inl (AttributeError (ty_name ty) "basedir"),
     set_fs f'
       (set_heap
          (<[instance w :=
               Object ty
                 (root_dict ty (default (cf_basedir w) basedir) name ∅) ∅]>
             (heap (new_object ty w).2)) (new_object ty w).2)).
Proof.
  intros Hprop Hmk.
  pose proof (init_resolve_root (instance w) name basedir
                (new_object ty w).2 _ (new_object_lookup ty w)) as Hres.
  rewrite (new_resolved _ _ _ _ _ _ Hres).
  erewrite init_makedirs_eq;
    [|simpl; apply lookup_insert_eq
     |simpl; unfold root_dict; rewrite lookup_insert_ne by done;
      apply lookup_insert_eq].
  unfold makedirs.
  match goal with
  | |- context [os_makedirs ?d ?e ?f] =>
      change (os_makedirs d e f) with
        (os_makedirs
           (os_path.join (default (cf_basedir w) basedir)
              ["databases"; ty_name ty +:+ "." +:+ name]) true (fs w))
  end.
  rewrite Hmk.
  rewrite init_stores_needs_basedir with (ty := ty); [done| |done].
  eexists. split; [simpl; apply lookup_insert_eq|]. split; [done|].
  simpl. unfold root_dict. by rewrite !lookup_insert_ne, lookup_empty.
Qed.

(** X10. A type that has no [basedir] member, as [Freezable] itself,
    cannot be constructed: the constructor never returns an object.
    Without a parent, when the creation of the directory succeeds, the
    constructor raises the attribute-lookup error for [basedir], and
    the directory that it has created stays on disk. *)
Theorem construction_needs_basedir_member ty name parent basedir w :
  ty_property ty "basedir" = None →
  (∀ self w', Freezable.new ty name parent basedir w ≠ (inr self, w'))
  ∧ ∀ f',
      os_makedirs
        (os_path.join (default (cf_basedir w) basedir)
           ["databases"; ty_name ty +:+ "." +:+ name]) true (fs w)
      = (inr (), f') →
      (Freezable.new ty name None basedir w).1
      = inl (AttributeError (ty_name ty) "basedir")
      ∧ fs (Freezable.new ty name None basedir w).2 = f'
      ∧ isdir f'
          (os_path.join (default (cf_basedir w) basedir)
             ["databases"; ty_name ty +:+ "." +:+ name]) = true.
Proof.
  intros Hprop. split.
  - intros self w' Hnew. revert Hnew.
    unfold Freezable.new, Freezable.__init__. rewrite bind_unfold.
    change (new_object ty w) with
      (inr (instance w) : exn + ref, (new_object ty w).2).
    cbv beta iota. rewrite bind_unfold.
    rewrite (bind_assoc (Freezable.init_resolve _ _ _ _)).
    rewrite bind_unfold.
    assert (lacks_inv (instance w) ty "basedir" (new_object ty w).2) as Hl.
    { eexists. split; [apply new_object_lookup|]. done. }
    apply (lacks_basedir_to_stores _ _ (instance w) name parent basedir)
      in Hl.
    destruct ((Freezable.init_resolve (instance w) name parent basedir;;
               Freezable.init_makedirs (instance w)) (new_object ty w).2)
      as [[e|[]] w1]; [done|].
    simpl in Hl. by rewrite (init_stores_needs_basedir ty _ _ Hl Hprop).
  - intros f' Hmk.
    rewrite (new_root_without_basedir ty name basedir w f' Hprop Hmk).
    split; [reflexivity|]. split; [reflexivity|].
    by eapply os_makedirs_creates.
Qed.

Lemma init_resolve_child_unregistered self name parent basedir w o po pdir :
  self ≠ parent →
  heap w !! self = Some o →
  heap w !! parent = Some po →
  obj_dict po !! "_m80_basedir" = Some (VStr pdir) →
  ty_add_child (obj_type po) = false →
  Freezable.init_resolve self name (Some parent) basedir w
  = (inl (AttributeError (ty_name (obj_type po)) "_m80_add_child"),
     set_heap
       (<[self := Object (obj_type o)
                    (child_dict (obj_type o) pdir name parent (obj_dict o))
                    (obj_children o)]> (heap w)) w).
Proof.
  intros Hne Ho Hpo Hpdir Hadd. unfold Freezable.init_resolve.
  do 5 mstep. rewrite bind_unfold. simpl. do 5 mstep.
  unfold _m80_add_child. simpl heap.
  rewrite !lookup_insert_ne by done. rewrite Hpo, Hadd.
  unfold set_heap; simpl. by rewrite !insert_insert_eq.
Qed.

(** X11. A parent whose type has no [_m80_add_child] method, as
    [Freezable] itself: the constructor raises the attribute-lookup
    error for the method before it creates anything on disk; the new
    object has its directory under the parent's by then, and the
    parent is as it was. *)
Theorem parent_without_registration ty name p basedir w po pdir :
  heap w !! p = Some po →
  obj_dict po !! "_m80_basedir" = Some (VStr pdir) →
  ty_add_child (obj_type po) = false →
  (Freezable.new ty name (Some p) basedir w).1
  = inl (AttributeError (ty_name (obj_type po)) "_m80_add_child")
  ∧ fs (Freezable.new ty name (Some p) basedir w).2 = fs w
  ∧ conns (Freezable.new ty name (Some p) basedir w).2 = conns w
  ∧ directory_of (instance w) (Freezable.new ty name (Some p) basedir w).2
    = Some (VStr (os_path.join pdir [ty_name ty +:+ "." +:+ name]))
  ∧ heap (Freezable.new ty name (Some p) basedir w).2 !! p = Some po.
Proof.
  intros Hpo Hpdir Hadd.
  pose proof (instance_fresh _ _ _ Hpo) as Hne.
  assert (heap (new_object ty w).2 !! p = Some po) as Hpo'.
  { simpl. by rewrite lookup_insert_ne. }
  assert (Freezable.new ty name (Some p) basedir w
          = (inl (AttributeError (ty_name (obj_type po)) "_m80_add_child"),
             set_heap
               (<[instance w :=
                    Object ty (child_dict ty pdir name p ∅) ∅]>
                  (heap (new_object ty w).2)) (new_object ty w).2)) as ->.
  { unfold Freezable.new, Freezable.__init__. rewrite bind_unfold.
    change (new_object ty w) with
      (inr (instance w) : exn + ref, (new_object ty w).2).
    cbv beta iota. rewrite !bind_unfold.
    by rewrite (init_resolve_child_unregistered (instance w) name p basedir
                  (new_object ty w).2 _ po pdir Hne
                  (new_object_lookup ty w) Hpo' Hpdir Hadd). }
  split; [done|]. split; [done|]. split; [done|]. split.
  - unfold directory_of. cbn [snd heap set_heap].
    rewrite lookup_insert_eq. unfold child_dict. cbn [mbind option_bind obj_dict].
    rewrite lookup_insert_ne by done. by rewrite lookup_insert_eq.
  - cbn [snd heap set_heap]. by rewrite lookup_insert_ne.
Qed.


(** ** What a construction leaves of what was there *)

Lemma preserves_setattr_kept r o r' a v :
  r' ≠ r → preserves (kept_inv r o) (setattr r' a v).
Proof.
  intros Hne w (o' & Ho' & Hrest). unfold setattr.
  destruct (heap w !! r') as [o1|]; [|by exists o'].
  exists o'. simpl. by rewrite lookup_insert_ne.
Qed.

Lemma preserves_add_child_kept r o p c :
  preserves (kept_inv r o) (_m80_add_child p c).
Proof.
  intros w (o' & Ho' & Hty & Hd & Hch). unfold _m80_add_child.
  destruct (heap w !! p) as [po|] eqn:Hpo; [|by exists o'].
  destruct (ty_add_child (obj_type po)); [|by exists o'].
  unfold kept_inv. simpl. destruct (decide (p = r)) as [->|Hr].
  - rewrite Ho' in Hpo. injection Hpo as <-.
    eexists. split; [apply lookup_insert_eq|]. cbn [obj_type obj_dict obj_children].
    split; [done|]. split; [done|]. by apply union_subseteq_r'.
  - exists o'. by rewrite lookup_insert_ne.
Qed.

Lemma fs_blind_kept r o : fs_blind (kept_inv r o).
Proof. by intros w f c n Hw. Qed.

Lemma rdb_new_frame basedir w :
  (∀ c cn, conns w !! c = Some cn →
     conns (relational_db.new basedir w).2 !! c = Some cn)
  ∧ (∀ r o, heap w !! r = Some o →
       heap (relational_db.new basedir w).2 !! r = Some o).
Proof.
  destruct (rdb_new_cases basedir w)
    as [(e & w' & -> & Hfs & Hconns & Hheap)|(b & l & -> & ->)]; simpl.
  - rewrite Hconns. split; [done|].
    intros r o Hr. rewrite Hheap; [done|]. by eapply not_eq_sym, instance_fresh.
  - split.
    + intros c cn Hc. rewrite lookup_insert_ne; [done|].
      intros <-. apply (elem_of_dom_2 (conns w)) in Hc.
      by apply (is_fresh (dom (conns w))).
    + intros r o Hr. rewrite lookup_insert_ne; [done|].
      by eapply instance_fresh.
Qed.

Lemma preserves_rdb_new_kept r o basedir :
  preserves (kept_inv r o) (relational_db.new basedir).
Proof.
  intros w (o' & Ho' & Hrest). exists o'.
  split; [by apply rdb_new_frame|done].
Qed.

Lemma preserves_rdb_new_conn c cn basedir :
  preserves (conn_inv c cn) (relational_db.new basedir).
Proof. intros w Hw. by apply rdb_new_frame. Qed.

Lemma heap_blind_conn c cn : heap_blind (conn_inv c cn).
Proof. by intros w h Hw. Qed.

Lemma preserves_makedirs_conn c cn name e :
  preserves (conn_inv c cn) (makedirs name e).
Proof.
  intros w Hw. unfold makedirs. by destruct (os_makedirs name e (fs w)).
Qed.

Lemma preserves_init_kept r o self name parent basedir :
  self ≠ r →
  preserves (kept_inv r o) (Freezable.__init__ self name parent basedir).
Proof.
  intros Hne.
  unfold Freezable.__init__, Freezable.init_resolve, Freezable.init_makedirs,
    Freezable.init_stores.
  repeat first
    [ apply preserves_rdb_new_kept
    | apply preserves_bind; [| intros ?]
    | apply preserves_ret | apply preserves_raise | apply preserves_gets
    | apply preserves_getattr | apply preserves_guess_type
    | apply preserves_as_str | apply preserves_sqlite_dict
    | apply preserves_makedirs; [apply fs_blind_kept]
    | apply preserves_setattr_kept; [done]
    | apply preserves_add_child_kept
    | case_match ].
Qed.

Lemma preserves_init_conn c cn self name parent basedir :
  preserves (conn_inv c cn) (Freezable.__init__ self name parent basedir).
Proof.
  unfold Freezable.__init__, Freezable.init_resolve, Freezable.init_makedirs,
    Freezable.init_stores.
  repeat first
    [ apply preserves_rdb_new_conn
    | apply preserves_bind; [| intros ?]
    | apply preserves_ret | apply preserves_raise | apply preserves_gets
    | apply preserves_getattr | apply preserves_guess_type
    | apply preserves_as_str | apply preserves_sqlite_dict
    | apply preserves_makedirs_conn
    | apply preserves_setattr_blind; [apply heap_blind_conn]
    | apply preserves_add_child_blind; [apply heap_blind_conn]
    | case_match ].
Qed.

Lemma new_world ty name parent basedir w :
  (Freezable.new ty name parent basedir w).2
  = (Freezable.__init__ (instance w) name parent basedir
       (new_object ty w).2).2.
Proof.
  unfold Freezable.new. rewrite bind_unfold.
  change (new_object ty w) with
    (inr (instance w) : exn + ref, (new_object ty w).2).
  cbv beta iota. rewrite bind_unfold.
  by destruct (Freezable.__init__ _ _ _ _ _) as [[e|[]] w2].
Qed.

(** X12. A construction, whatever its outcome, leaves every object
    that existed with its class and all its attributes, among them its
    directory, and with at least the children it had; it leaves every
    open connection as it was, and every directory on disk. *)
Theorem construction_keeps_existing ty name parent basedir w :
  (∀ r o, heap w !! r = Some o →
     kept_inv r o (Freezable.new ty name parent basedir w).2)
  ∧ (∀ r v, directory_of r w = Some v →
       directory_of r (Freezable.new ty name parent basedir w).2 = Some v)
  ∧ (∀ c cn, conns w !! c = Some cn →
       conns (Freezable.new ty name parent basedir w).2 !! c = Some cn)
  ∧ (∀ d, isdir (fs w) d = true →
       isdir (fs (Freezable.new ty name parent basedir w).2) d = true).
Proof.
  assert (∀ r o, heap w !! r = Some o →
            kept_inv r o (Freezable.new ty name parent basedir w).2) as Hkept.
  { intros r o Hr. rewrite new_world.
    apply preserves_init_kept; [by eapply instance_fresh|].
    exists o. simpl. split; [|done].
    rewrite lookup_insert_ne; [done|]. by eapply instance_fresh. }
  split; [done|]. split; [|split].
  - intros r v. unfold directory_of.
    destruct (heap w !! r) as [o|] eqn:Hr; [|done]. simpl. intros Hv.
    destruct (Hkept r o Hr) as (o' & -> & _ & Hd & _). simpl. by rewrite Hd.
  - intros c cn Hc. rewrite new_world.
    by apply (preserves_init_conn c cn).
  - intros d Hd.
    apply (preserves_new (disk_inv d));
      [apply stable_disk_inv | by intros w1 h Hw1 | done].
Qed.


(** ** The store of a constructed object *)

Lemma getattr_world r a w : (getattr r a w).2 = w.
Proof. by apply (preserves_getattr (λ w', w' = w)). Qed.

Lemma init_stores_returns self w1 w2 o1 :
  heap w1 !! self = Some o1 →
  Freezable.init_stores self w1 = (inr (), w2) →
  ∃ b c cn,
    getattr self "basedir" w1 = (inr (VStr b), w1)
    ∧ getattr self "_m80db" w2 = (inr (VRef (instance w1)), w2)
    ∧ getattr (instance w1) "db" w2 = (inr (VConn c), w2)
    ∧ conns w1 !! c = None
    ∧ conns w2 !! c = Some cn
    ∧ c_filename cn
      = os_path.expanduser (home w1) (os_path.join b ["db.sqlite"])
    ∧ fs_dirs (fs w2) = fs_dirs (fs w1).
Proof.
  intros Ho1. unfold Freezable.init_stores. rewrite bind_unfold.
  pose proof (getattr_world self "basedir" w1) as Hw.
  destruct (getattr self "basedir" w1) as [[e|bv] w1'] eqn:Hb; [done|].
  simpl in Hw. subst w1'. rewrite bind_unfold.
  destruct (rdb_new_cases bv w1)
    as [(e & w' & -> & _)|(b & l & -> & ->)]; [done|].
  cbv beta iota. pose proof (instance_fresh _ _ _ Ho1) as Hne.
  rewrite bind_unfold. erewrite setattr_eq
    by (simpl; rewrite lookup_insert_ne by done; exact Ho1).
  cbv beta iota. rewrite bind_unfold.
  match goal with |- context [getattr self "_db" ?W] =>
    pose proof (getattr_world self "_db" W) as Hw;
    destruct (getattr self "_db" W) as [[e|dv] w3] eqn:Hdb; [done|];
    simpl in Hw; subst w3 end.
  rewrite bind_unfold. unfold sqlite_dict at 1. rewrite ret_unfold.
  cbv beta iota. erewrite setattr_eq by heap_lookup.
  intros [= <-]. eexists b, _, _. split; [done|]. split; [|split].
  - eapply getattr_dict; [simpl; apply lookup_insert_eq|].
    simpl. rewrite lookup_insert_ne by done. apply lookup_insert_eq.
  - eapply getattr_dict;
      [simpl; rewrite !lookup_insert_ne by done; apply lookup_insert_eq|].
    simpl. apply lookup_insert_eq.
  - split; [apply (not_elem_of_dom (conns w1)), is_fresh|].
    split; [simpl; apply lookup_insert_eq|]. done.
Qed.

Lemma preserves_init_resolve_blind (I : world → Prop) self name parent
    basedir :
  heap_blind I → preserves I (Freezable.init_resolve self name parent basedir).
Proof.
  intros HI. unfold Freezable.init_resolve.
  repeat first
    [ apply preserves_bind; [| intros ?]
    | apply preserves_ret | apply preserves_raise | apply preserves_gets
    | apply preserves_getattr | apply preserves_guess_type
    | apply preserves_as_str
    | apply preserves_setattr_blind; [done]
    | apply preserves_add_child_blind; [done]
    | case_match ].
Qed.

Lemma preserves_init_resolve_kept r o self name parent basedir :
  self ≠ r →
  preserves (kept_inv r o) (Freezable.init_resolve self name parent basedir).
Proof.
  intros Hne. unfold Freezable.init_resolve.
  repeat first
    [ apply preserves_bind; [| intros ?]
    | apply preserves_ret | apply preserves_raise | apply preserves_gets
    | apply preserves_getattr | apply preserves_guess_type
    | apply preserves_as_str
    | apply preserves_setattr_kept; [done]
    | apply preserves_add_child_kept
    | case_match ].
Qed.

Lemma new_resolves_dict ty name parent basedir w :
  parent_ready parent w →
  ∃ w1 dict ch d,
    Freezable.init_resolve (instance w) name parent basedir
      (new_object ty w).2 = (inr (), w1)
    ∧ heap w1 !! instance w = Some (Object ty dict ch)
    ∧ dict !! "_m80_basedir" = Some (VStr d)
    ∧ dict !! "_m80_name" = Some (VStr name)
    ∧ dict !! "basedir" = None.
Proof.
  intros Hparent. destruct parent as [p|].
  - destruct Hparent as (po & pdir & Hpo & Hpdir & Hadd).
    eexists _, _, _, _.
    split; [by apply (new_child_resolved _ _ _ _ _ po pdir)|].
    simpl. rewrite lookup_insert_ne
      by (intros Heq; by eapply (instance_fresh w p)).
    rewrite lookup_insert_eq. split; [done|]. unfold child_dict.
    split; [|split].
    + rewrite lookup_insert_ne by done. by rewrite lookup_insert_eq.
    + rewrite !lookup_insert_ne by done. by rewrite lookup_insert_eq.
    + by rewrite !lookup_insert_ne, lookup_empty.
  - eexists _, _, _, _.
    split; [apply init_resolve_root, new_object_lookup|].
    simpl. rewrite lookup_insert_eq. split; [done|]. unfold root_dict.
    split; [|split].
    + rewrite lookup_insert_ne by done. by rewrite lookup_insert_eq.
    + rewrite !lookup_insert_ne by done. by rewrite lookup_insert_eq.
    + by rewrite !lookup_insert_ne, lookup_empty.
Qed.

(** X13. A construction that returns, with no parent or with a parent
    that can register children.  The directory of the new object is on
    disk.  Its class has a [basedir] member, which was evaluated on the
    attributes of the object after resolution and gave a string [b].
    The [_m80db] attribute of the object is a new relational store,
    whose connection was not open before and is on the file
    [expanduser(join(b, 'db.sqlite'))]. *)
Theorem constructed_object_store ty name parent basedir w self w' :
  parent_ready parent w →
  Freezable.new ty name parent basedir w = (inr self, w') →
  ∃ d p dict b db c cn,
    directory_of self w' = Some (VStr d)
    ∧ isdir (fs w') d = true
    ∧ ty_property ty "basedir" = Some p
    ∧ dict !! "_m80_basedir" = Some (VStr d)
    ∧ dict !! "_m80_name" = Some (VStr name)
    ∧ p dict = VStr b
    ∧ getattr self "_m80db" w' = (inr (VRef db), w')
    ∧ heap w !! db = None
    ∧ getattr db "db" w' = (inr (VConn c), w')
    ∧ conns w !! c = None
    ∧ conns w' !! c = Some cn
    ∧ c_filename cn
      = os_path.expanduser (home w) (os_path.join b ["db.sqlite"]).
Proof.
  intros Hparent Hnew.
  destruct (new_resolves_dict ty name parent basedir w Hparent)
    as (w1 & dict & ch & d & Hres & Ho & Hd & Hname & Hnob).
  pose proof (new_returns_instance _ _ _ _ _ _ _ Hnew) as ->.
  rewrite (new_resolved _ _ _ _ _ _ Hres) in Hnew.
  rewrite (init_makedirs_eq _ _ _ _ Ho Hd) in Hnew.
  unfold makedirs in Hnew.
  destruct (os_makedirs d true (fs w1)) as [[e|[]] f2] eqn:Hmk; [done|].
  destruct (Freezable.init_stores (instance w) (set_fs f2 w1))
    as [[e|[]] w3] eqn:Hst; [done|]. injection Hnew as <-.
  destruct (init_stores_returns (instance w) (set_fs f2 w1) w3 _ Ho Hst)
    as (b & c & cn & Hb & Hm80db & Hdb & Hnone & Hsome & Hfile & _).
  assert (conns w1 = conns w ∧ home w1 = home w) as (Hc & Hh).
  { pose proof (preserves_init_resolve_blind
                  (λ w', conns w' = conns w ∧ home w' = home w)
                  (instance w) name parent basedir) as Hp.
    specialize (Hp ltac:(by intros ???) (new_object ty w).2 ltac:(done)).
    by rewrite Hres in Hp. }
  assert (∃ p, ty_property ty "basedir" = Some p ∧ p dict = VStr b)
    as (p & Hp & Hpb).
  { unfold getattr in Hb. cbn [heap set_fs] in Hb. rewrite Ho in Hb.
    cbn [obj_dict obj_type] in Hb. rewrite Hnob in Hb.
    destruct (ty_property ty "basedir") as [p|]; [|done].
    exists p. split; [done|]. congruence. }
  exists d, p, dict, b, (instance (set_fs f2 w1)), c, cn.
  split; [|split].
  - pose proof (preserves_init_stores (dir_inv (instance w) (VStr d))
                  (instance w) (stable_dir_inv _ _) (set_fs f2 w1)) as Hk.
    rewrite Hst in Hk. apply Hk. unfold dir_inv, directory_of.
    cbn [heap set_fs]. rewrite Ho. exact Hd.
  - pose proof (preserves_init_stores (disk_inv d)
                  (instance w) (stable_disk_inv _) (set_fs f2 w1)) as Hk.
    rewrite Hst in Hk. apply Hk. unfold disk_inv. cbn [fs set_fs].
    by eapply os_makedirs_creates.
  - do 5 (split; [done|]). split; [|split; [done|]].
    + destruct (heap w !! instance (set_fs f2 w1)) as [o0|] eqn:Ho0; [|done].
      exfalso.
      assert (kept_inv (instance (set_fs f2 w1)) o0 w1) as (o' & Ho' & _).
      { pose proof (preserves_init_resolve_kept (instance (set_fs f2 w1)) o0
                      (instance w) name parent basedir
                      (instance_fresh _ _ _ Ho0) (new_object ty w).2) as Hk.
        rewrite Hres in Hk. apply Hk. exists o0. simpl. split; [|done].
        rewrite lookup_insert_ne; [done|]. by eapply instance_fresh. }
      by apply (instance_fresh (set_fs f2 w1) _ _ Ho').
    + simpl in Hnone, Hfile. rewrite Hc in Hnone. rewrite Hh in Hfile.
      done.
Qed.


(** ** The temp-file factory: keywords and names *)

Lemma tmpfile_eq args kwargs w :
  Freezable._tmpfile args kwargs w
  = NamedTemporaryFile "w" (tmp_directory w) kwargs w.
Proof. unfold Freezable._tmpfile. by rewrite !bind_unfold, !gets_unfold. Qed.

(** X14. The factory passes the mode and the directory itself: a call
    with a keyword [mode] or [dir] raises a [TypeError] and changes
    nothing, whatever the positional arguments and whether or not the
    directory exists. *)
Theorem tmpfile_mode_and_dir_fixed args kwargs w :
  Exists (λ kv, kv.1 = "mode" ∨ kv.1 = "dir") kwargs →
  ∃ msg, Freezable._tmpfile args kwargs w = (inl (TypeError msg), w).
Proof.
  intros Hkw. rewrite tmpfile_eq. unfold NamedTemporaryFile.
  rewrite bool_decide_eq_true_2 by done. by eexists.
Qed.


(** ** [_get_dbpath] *)

(** X16. On an object that the constructor has returned, and whose
    class has no [_basedir] member, as [Freezable] itself has none,
    every call of [_get_dbpath] raises the attribute-lookup error for
    [_basedir] and changes nothing: with [create] set, no directory is
    created. *)
Theorem get_dbpath_on_constructed ty name parent basedir w self w' :
  Freezable.new ty name parent basedir w = (inr self, w') →
  ty_property ty "_basedir" = None →
  ∀ extension create,
    Freezable._get_dbpath self extension create w'
    = (inl (AttributeError (ty_name ty) "_basedir"), w').
Proof.
  intros Hnew Hprop extension create.
  pose proof (new_returns_instance _ _ _ _ _ _ _ Hnew) as ->.
  assert (lacks_inv (instance w) ty "_basedir" w') as (o & Ho & <- & Hlack).
  { replace w' with (Freezable.new ty name parent basedir w).2
      by by rewrite Hnew.
    rewrite new_world. apply lacks__basedir_init.
    eexists. split; [apply new_object_lookup|]. done. }
  unfold Freezable._get_dbpath. rewrite bind_unfold.
  by erewrite getattr_missing.
Qed.

(** X17. [_get_dbpath] on an object whose [_basedir] is the string
    [b]: the path is [expanduser(join(b, extension))].  Without
    [create] the call returns the path and changes nothing.  With
    [create] the call does what [os.makedirs(path, exist_ok=True)]
    does: when that raises, the call raises the same; when that
    returns, the call returns the path, the path is a directory then,
    only the filesystem has changed, and a second call returns the
    same path and changes nothing. *)
Theorem get_dbpath_path self extension w b :
  getattr self "_basedir" w = (inr (VStr b), w) →
  Freezable._get_dbpath self extension false w
  = (inr (os_path.expanduser (home w) (os_path.join b [extension])), w)
  ∧ (∀ e f,
       os_makedirs (os_path.expanduser (home w) (os_path.join b [extension]))
         true (fs w) = (inl e, f) →
       Freezable._get_dbpath self extension true w = (inl e, set_fs f w))
  ∧ (∀ f,
       os_makedirs (os_path.expanduser (home w) (os_path.join b [extension]))
         true (fs w) = (inr (), f) →
       Freezable._get_dbpath self extension true w
       = (inr (os_path.expanduser (home w) (os_path.join b [extension])),
          set_fs f w)
       ∧ isdir f (os_path.expanduser (home w) (os_path.join b [extension]))
         = true
       ∧ Freezable._get_dbpath self extension true (set_fs f w)
         = (inr (os_path.expanduser (home w) (os_path.join b [extension])),
            set_fs f w)).
Proof.
  intros Hb.
  assert (∀ f, getattr self "_basedir" (set_fs f w)
               = (inr (VStr b), set_fs f w)) as Hbf.
  { intros f. unfold getattr in *. cbn [heap set_fs].
    destruct (heap w !! self) as [o|]; [|done].
    destruct (obj_dict o !! "_basedir"); [congruence|].
    destruct (ty_property (obj_type o) "_basedir"); [congruence|done]. }
  split; [|split].
  - unfold Freezable._get_dbpath.
    by rewrite bind_unfold, Hb, bind_unfold, as_str_eq, bind_unfold,
      gets_unfold, bind_unfold, ret_unfold.
  - intros e f Hmk. unfold Freezable._get_dbpath.
    rewrite bind_unfold, Hb, bind_unfold, as_str_eq, bind_unfold,
      gets_unfold, bind_unfold. unfold makedirs. by rewrite Hmk.
  - intros f Hmk. pose proof (os_makedirs_creates _ _ _ Hmk) as Hdir.
    split; [|split; [done|]].
    + unfold Freezable._get_dbpath.
      rewrite bind_unfold, Hb, bind_unfold, as_str_eq, bind_unfold,
        gets_unfold, bind_unfold. unfold makedirs. by rewrite Hmk.
    + unfold Freezable._get_dbpath.
      rewrite bind_unfold, Hbf, bind_unfold, as_str_eq, bind_unfold,
        gets_unfold, bind_unfold. unfold makedirs. cbn [fs home set_fs].
      by rewrite (os_makedirs_existing _ _ Hdir).
Qed.

End Proofs.

(** * The properties on concrete objects *)

Section Concrete.

Import Sample.

Lemma child_directory_registered_witness :
  directory_of (instance w_foo)
    (Freezable.new Locus "bar" (Some 0) None w_foo).2
  = Some (VStr (os_path.join "/data/databases/Cohort.foo"
                  [ty_name Locus +:+ "." +:+ "bar"]))
  ∧ ∃ registry,
      children_of 0 (Freezable.new Locus "bar" (Some 0) None w_foo).2
      = Some registry
      ∧ registry = {[ instance w_foo ]} ∪ obj_children foo
      ∧ count_occ Nat.eq_dec (elements registry) (instance w_foo) = 1.
Proof.
  apply (child_directory_registered Locus "bar" 0 None w_foo foo
           "/data/databases/Cohort.foo");
    vm_compute; reflexivity.
Defined.

Example child_directory_scenario :
  directory_of 2 (Freezable.new Locus "bar" (Some 0) None w_foo).2
  = Some (VStr "/data/databases/Cohort.foo/Locus.bar")
  ∧ elements <$> children_of 0 (Freezable.new Locus "bar" (Some 0) None w_foo).2
    = Some [2].
Proof. by vm_compute. Qed.

Example root_directory_scenario :
  directory_of 0
    (Freezable.new Cohort "foo" None (Some "/tmp/m80test") w0).2
  = Some (VStr "/tmp/m80test/databases/Cohort.foo").
Proof. by vm_compute. Qed.

(** The base class itself has no [basedir] member: its construction
    resolves and creates the directory and then raises. *)
Example base_class_construction :
  (Freezable.new Freezable.type "foo" None None w0).1
  = inl (AttributeError "Freezable" "basedir")
  ∧ directory_of 0 (Freezable.new Freezable.type "foo" None None w0).2
    = Some (VStr "/data/databases/Freezable.foo")
  ∧ isdir (fs (Freezable.new Freezable.type "foo" None None w0).2)
      "/data/databases/Freezable.foo" = true.
Proof. by vm_compute. Qed.

Lemma second_construction_makedirs_witness :
  ∃ w2,
    Freezable.init_resolve
      (instance (Freezable.new Cohort "foo" None None w0).2) "foo" None None
      (new_object Cohort (Freezable.new Cohort "foo" None None w0).2).2
    = (inr (), w2)
    ∧ Freezable.init_makedirs
        (instance (Freezable.new Cohort "foo" None None w0).2) w2
      = (inr (), w2).
Proof.
  apply (second_construction_makedirs Cohort "foo" None None w0
           "/data/databases/Cohort.foo");
    [exact I | vm_compute; reflexivity | vm_compute; reflexivity].
Defined.

Example second_construction_scenario :
  (Freezable.new Cohort "foo" None None w0).1 = inr 0
  ∧ (Freezable.new Cohort "foo" None None w_foo).1 = inr 2
  ∧ directory_of 2 (Freezable.new Cohort "foo" None None w_foo).2
    = directory_of 0 w_foo.
Proof. by vm_compute. Qed.

(** A name with a path separator, and a name with a null byte: the
    first construction returns an object whose directory has the
    separator in it, and has created nested directories; the second
    has resolved a directory and then raises [ValueError] when it
    creates it.  Neither raises [InvalidNameError]. *)
Lemma invalid_name_accepted :
  illegal_name "a/b" = true
  ∧ (Freezable.new Cohort "a/b" None None w0).1 = inr 0
  ∧ directory_of 0 (Freezable.new Cohort "a/b" None None w0).2
    = Some (VStr "/data/databases/Cohort.a/b")
  ∧ is_dir (fs (Freezable.new Cohort "a/b" None None w0).2)
      ["data"; "databases"; "Cohort.a"; "b"] = true
  ∧ illegal_name (String Ascii.zero "b") = true
  ∧ (Freezable.new Cohort (String Ascii.zero "b") None None w0).1
    = inl (ValueError "embedded null byte")
  ∧ directory_of 0
      (Freezable.new Cohort (String Ascii.zero "b") None None w0).2
    = Some (VStr ("/data/databases/Cohort." +:+ String Ascii.zero "b")).
Proof. by vm_compute. Qed.



Example tmpfile_scenario :
  (Freezable._tmpfile [] [] w_tmp).1
  = inr (FileHandle "/data/tmp/tmpk3x_0" ["data"; "tmp"; "tmpk3x_0"] "w")
  ∧ (Freezable._tmpfile [] [("mode", VStr "wb")] w_tmp).1
    = inl (TypeError "got multiple values for argument").
Proof. by vm_compute. Qed.

Lemma store_methods_fail_witness :
  (∃ o c, heap w_store !! 0 = Some o
      ∧ obj_dict o !! "db" = Some (VConn c)
      ∧ obj_dict o !! "_db" = None)
  ∧ ∀ w', heap w' !! 0 = heap w_store !! 0 →
      (∀ (A : Type) (body : value → M A),
         relational_db.bulk_transaction 0 body w'
         = (inl (AttributeError "relational_db" "_db"), w'))
      ∧ (∀ q,
           relational_db.query 0 q w'
           = (inl (AttributeError "relational_db" "_db"), w')).
Proof.
  apply (store_methods_fail_on_db_lookup (VStr "/data") w0 0 w_store).
  vm_compute; reflexivity.
Defined.

(** C3 on the code.  A scope on a store that the constructor has
    produced, with a body that inserts a row and then raises: what
    reaches the caller is the attribute-lookup error of the entry, not
    the error of the body, and the engine has seen no statement, no
    savepoint, no rollback, no release. *)
Theorem failing_scope_on_constructed_store :
  relational_db.bulk_transaction 0 failing_body w_store
  = (inl (AttributeError "relational_db" "_db"), w_store)
  ∧ c_executed <$> conns w_store !! 0 = Some [].
Proof. by vm_compute. Qed.

(** C4 on the code.  A scope with a body that inserts a row and
    returns, and a query after it, on a store that the constructor has
    produced: both raise the attribute-lookup error, no cursor is
    handed to the body and nothing is written or read. *)
Theorem clean_scope_on_constructed_store :
  relational_db.bulk_transaction 0 writing_body w_store
  = (inl (AttributeError "relational_db" "_db"), w_store)
  ∧ relational_db.query 0 "SELECT x FROM t" w_store
    = (inl (AttributeError "relational_db" "_db"), w_store)
  ∧ c_data <$> conns w_store !! 0 = Some ∅.
Proof. by vm_compute. Qed.

(** C5 on the code.  A statement to which the engine answers with two
    named columns and one row: [query], on a store that the constructor
    has produced, raises the attribute-lookup error and returns no
    table. *)
Theorem query_on_constructed_store :
  sql "SELECT 1 AS one, 2 AS two" ∅
  = inr (∅, ResultSet [("one", ""); ("two", "")] [[VInt 1; VInt 2]])
  ∧ relational_db.query 0 "SELECT 1 AS one, 2 AS two" w_store
    = (inl (AttributeError "relational_db" "_db"), w_store).
Proof. by vm_compute. Qed.

(** C10 on the code.  Entering a scope on a store that the constructor
    has produced raises before the pragmas: the connection has the
    settings that it was opened with. *)
Theorem pragmas_on_constructed_store :
  relational_db.bulk_transaction 0 (λ _, mret ()) w_store
  = (inl (AttributeError "relational_db" "_db"), w_store)
  ∧ c_synchronous <$> conns w_store !! 0 = Some "full"
  ∧ c_journal_mode <$> conns w_store !! 0 = Some "delete".
Proof. by vm_compute. Qed.

(** With [_db] bound by hand the two methods do what their callers
    expect: the failing scope leaves no row and hands on the error of
    the body, the scope that returns leaves its row, which [query]
    then shows, and the pragmas of the entry stay. *)
Example patched_store_failing_scope :
  (relational_db.bulk_transaction 0 failing_body w_patched).1
  = inl (UserError "DeliberateError" "deliberate")
  ∧ c_data <$>
      conns (relational_db.bulk_transaction 0 failing_body w_patched).2 !! 0
    = Some ∅
  ∧ c_executed <$>
      conns (relational_db.bulk_transaction 0 failing_body w_patched).2 !! 0
    = Some ["PRAGMA synchronous = off"; "PRAGMA journal_mode = memory";
            "SAVEPOINT m80_bulk_transaction"; "INSERT INTO t VALUES (1)";
            "ROLLBACK TO SAVEPOINT m80_bulk_transaction";
            "RELEASE SAVEPOINT m80_bulk_transaction"].
Proof. by vm_compute. Qed.

Example patched_store_round_trip :
  (relational_db.bulk_transaction 0 writing_body w_patched).1 = inr ()
  ∧ (relational_db.query 0 "SELECT x FROM t"
       (relational_db.bulk_transaction 0 writing_body w_patched).2).1
    = inr (DataFrame ["x"] [[VInt 1]])
  ∧ c_synchronous <$>
      conns (relational_db.bulk_transaction 0 writing_body w_patched).2 !! 0
    = Some "off"
  ∧ c_journal_mode <$>
      conns (relational_db.bulk_transaction 0 writing_body w_patched).2 !! 0
    = Some "memory".
Proof. by vm_compute. Qed.

(** ** The added properties at concrete inputs *)

Lemma constructed_store_cursor_witness :
  ∃ b c cn,
    VStr "/data" = VStr b
    ∧ getattr 0 "filename" w_store
      = (inr (VStr (os_path.expanduser (home w0)
                      (os_path.join b ["db.sqlite"]))), w_store)
    ∧ getattr 0 "db" w_store = (inr (VConn c), w_store)
    ∧ relational_db.cursor 0 w_store = (inr (VCursor c), w_store)
    ∧ conns w0 !! c = None
    ∧ conns w_store !! c = Some cn
    ∧ c_filename cn
      = os_path.expanduser (home w0) (os_path.join b ["db.sqlite"])
    ∧ c_savepoints cn = []
    ∧ c_executed cn = [].
Proof.
  apply (constructed_store_cursor (VStr "/data") w0 0 w_store).
  vm_compute; reflexivity.
Defined.






Lemma query_columns_and_rows_witness :
  ∃ df,
    (relational_db.query 0 "SELECT 1 AS one, 2 AS two" w_patched).1 = inr df
    ∧ df_columns df = ["one"; "two"]
    ∧ List.length (df_columns df) = 2
    ∧ df_rows df = [[VInt 1; VInt 2]]
    ∧ Forall (λ r, List.length r = List.length (df_columns df)) (df_rows df).
Proof.
  apply (query_columns_and_rows 0 store 0 store_conn
           "SELECT 1 AS one, 2 AS two" w_patched
           (ResultSet [("one", EmptyString); ("two", EmptyString)]
              [[VInt 1; VInt 2]])
           (sqlite_step "SELECT 1 AS one, 2 AS two" store_conn).2);
    first [ by intros [=]
          | by repeat constructor
          | vm_compute; reflexivity ].
Defined.

Lemma query_keeps_statement_effect_witness :
  (relational_db.query 0 "INSERT INTO t VALUES (1)" w_patched).2
  = set_conns
      (<[0 := (sqlite_step "INSERT INTO t VALUES (1)" store_conn).2]>
         (conns w_patched)) w_patched
  ∧ ∀ e, (sqlite_step "INSERT INTO t VALUES (1)" store_conn).1 = inl e →
      (relational_db.query 0 "INSERT INTO t VALUES (1)" w_patched).1 = inl e.
Proof.
  apply (query_keeps_statement_effect 0 store 0 store_conn
           "INSERT INTO t VALUES (1)" w_patched);
    vm_compute; reflexivity.
Defined.

Lemma construction_needs_basedir_member_witness :
  (∀ self w',
     Freezable.new Freezable.type "foo" None None w0 ≠ (inr self, w'))
  ∧ ∀ f',
      os_makedirs
        (os_path.join (default (cf_basedir w0) None)
           ["databases"; ty_name Freezable.type +:+ "." +:+ "foo"]) true
        (fs w0)
      = (inr (), f') →
      (Freezable.new Freezable.type "foo" None None w0).1
      = inl (AttributeError (ty_name Freezable.type) "basedir")
      ∧ fs (Freezable.new Freezable.type "foo" None None w0).2 = f'
      ∧ isdir f'
          (os_path.join (default (cf_basedir w0) None)
             ["databases"; ty_name Freezable.type +:+ "." +:+ "foo"]) = true.
Proof.
  apply (construction_needs_basedir_member Freezable.type "foo" None None w0).
  reflexivity.
Defined.

Lemma parent_without_registration_witness :
  (Freezable.new Cohort "bar" (Some 0) None w_base).1
  = inl (AttributeError (ty_name (obj_type base)) "_m80_add_child")
  ∧ fs (Freezable.new Cohort "bar" (Some 0) None w_base).2 = fs w_base
  ∧ conns (Freezable.new Cohort "bar" (Some 0) None w_base).2 = conns w_base
  ∧ directory_of (instance w_base)
      (Freezable.new Cohort "bar" (Some 0) None w_base).2
    = Some (VStr (os_path.join "/data/databases/Freezable.foo"
                    [ty_name Cohort +:+ "." +:+ "bar"]))
  ∧ heap (Freezable.new Cohort "bar" (Some 0) None w_base).2 !! 0 = Some base.
Proof.
  apply (parent_without_registration Cohort "bar" 0 None w_base base
           "/data/databases/Freezable.foo");
    vm_compute; reflexivity.
Defined.

Lemma constructed_object_store_witness :
  ∃ d p dict b db c cn,
    directory_of 0 w_foo = Some (VStr d)
    ∧ isdir (fs w_foo) d = true
    ∧ ty_property Cohort "basedir" = Some p
    ∧ dict !! "_m80_basedir" = Some (VStr d)
    ∧ dict !! "_m80_name" = Some (VStr "foo")
    ∧ p dict = VStr b
    ∧ getattr 0 "_m80db" w_foo = (inr (VRef db), w_foo)
    ∧ heap w0 !! db = None
    ∧ getattr db "db" w_foo = (inr (VConn c), w_foo)
    ∧ conns w0 !! c = None
    ∧ conns w_foo !! c = Some cn
    ∧ c_filename cn
      = os_path.expanduser (home w0) (os_path.join b ["db.sqlite"]).
Proof.
  apply (constructed_object_store Cohort "foo" None None w0 0 w_foo);
    [exact I | vm_compute; reflexivity].
Defined.

Lemma tmpfile_mode_and_dir_fixed_witness :
  ∃ msg,
    Freezable._tmpfile [VStr "r"] [("mode", VStr "wb")] w0
    = (inl (TypeError msg), w0).
Proof.
  apply (tmpfile_mode_and_dir_fixed [VStr "r"] [("mode", VStr "wb")] w0).
  apply Exists_cons_hd. left. reflexivity.
Defined.


Lemma get_dbpath_on_constructed_witness :
  Freezable._get_dbpath 0 "cache" true w_foo
  = (inl (AttributeError (ty_name Cohort) "_basedir"), w_foo).
Proof.
  apply (get_dbpath_on_constructed Cohort "foo" None None w0 0 w_foo);
    vm_compute; reflexivity.
Defined.

Lemma get_dbpath_path_witness :
  Freezable._get_dbpath 0 "cache" false w_basedir
  = (inr (os_path.expanduser (home w_basedir)
            (os_path.join "/data/databases/Cohort.foo" ["cache"])),
     w_basedir)
  ∧ (∀ e f,
       os_makedirs
         (os_path.expanduser (home w_basedir)
            (os_path.join "/data/databases/Cohort.foo" ["cache"]))
         true (fs w_basedir) = (inl e, f) →
       Freezable._get_dbpath 0 "cache" true w_basedir
       = (inl e, set_fs f w_basedir))
  ∧ (∀ f,
       os_makedirs
         (os_path.expanduser (home w_basedir)
            (os_path.join "/data/databases/Cohort.foo" ["cache"]))
         true (fs w_basedir) = (inr (), f) →
       Freezable._get_dbpath 0 "cache" true w_basedir
       = (inr (os_path.expanduser (home w_basedir)
                 (os_path.join "/data/databases/Cohort.foo" ["cache"])),
          set_fs f w_basedir)
       ∧ isdir f
           (os_path.expanduser (home w_basedir)
              (os_path.join "/data/databases/Cohort.foo" ["cache"]))
         = true
       ∧ Freezable._get_dbpath 0 "cache" true (set_fs f w_basedir)
         = (inr (os_path.expanduser (home w_basedir)
                   (os_path.join "/data/databases/Cohort.foo" ["cache"])),
            set_fs f w_basedir)).
Proof.
  apply (get_dbpath_path 0 "cache" w_basedir "/data/databases/Cohort.foo").
  vm_compute; reflexivity.
Defined.

(** The added properties on these inputs, as values. *)
Example batch_scenarios :
  c_data <$> conns
    (relational_db.bulk_transaction 0 (execute_all two_inserts) w_patched).2
    !! 0
  = Some (<["t" := [[VInt 1]; [VInt 1]]]> ∅)
  ∧ c_data <$> conns
      (relational_db.bulk_transaction 0 (execute_all insert_then_error)
         w_patched).2 !! 0
    = Some ∅
  ∧ c_savepoints <$> conns
      (relational_db.bulk_transaction 0
         (λ _, relational_db.bulk_transaction 0 failing_body) w_patched).2
      !! 0
    = Some [].
Proof. by vm_compute. Qed.

Example get_dbpath_scenario :
  (Freezable._get_dbpath 0 "cache" true w_basedir).1
  = inr "/data/databases/Cohort.foo/cache"
  ∧ isdir (fs (Freezable._get_dbpath 0 "cache" true w_basedir).2)
      "/data/databases/Cohort.foo/cache" = true
  ∧ isdir (fs w_basedir) "/data/databases/Cohort.foo/cache" = false
  ∧ (Freezable._get_dbpath 0 "/elsewhere" false w_basedir).1
    = inr "/elsewhere".
Proof. by vm_compute. Qed.

End Concrete.
